(** * Ingestion driver of the RAG document pipeline

    Shallow embedding of [src/rag_doc_ingestion/ingest_docs.py]: the
    module-level initialisation (logging, settings, embedding model), the
    driver [build_vector_store_from_documents] and the entry-point guard.

    The script only sequences calls into libraries.  Those libraries are
    taken as an interface ([Collaborators]); the on-disk vector store is a
    finite map; logging writes formatted entries to a console stream, for
    the records of the script and for those the libraries log through the
    root logger alike; every completed library call is appended to a trace
    so that ordering and "at most once" statements can be expressed. *)

From Stdlib Require Import ZArith Lia.
From stdpp Require Import base strings list gmap pretty.

Local Open Scope Z_scope.

(** ** Python values *)

(** An exception object whose class derives from [Exception]: class name
    and message.  (Interrupts, which derive from [BaseException] only, are
    no values of this type.) *)
Inductive exn : Type :=
  | PyException (cls : string) (msg : string).

(** [str(e)] as interpolated by an f-string. *)
Definition str_of_exn (e : exn) : string :=
  match e with PyException _ msg => msg end.

(** The outcome of a call: [inl e] when it raised [e], [inr v] when it
    returned [v]. *)
Definition result (A : Type) : Type := (exn + A)%type.

(** ** Data model *)

Record File := { file_name : string; file_content : string }.

Record Document := { doc_text : string; doc_metadata : string }.

Record Node := { node_id : string; node_text : string; node_metadata : string }.

(** A component of an embedding is an IEEE double; it is kept as its 64-bit
    pattern, the driver never looks inside. *)
Definition float64 : Type := Z.

Record StoreRecord := {
  rec_id : string;
  rec_embedding : list float64;
  rec_text : string;
  rec_metadata : string
}.

(** The three attributes the driver reads from the settings object. *)
Record Settings := {
  DOCUMENTS_DIR : string;
  VECTOR_STORE_DIR : string;
  COLLECTION_NAME : string
}.

(** The object bound to [embed_model]. *)
Record EmbedModel := {
  embed_dim : nat;
  get_text_embedding : string -> result (list float64)
}.

(** What [SimpleNodeParser.from_defaults] returns: the two keyword
    arguments it was given. *)
Record NodeParser := { chunk_size : Z; chunk_overlap : Z }.

(** The module-level names the driver reads ([settings], [embed_model]). *)
Record Globals := { settings : Settings; embed_model : EmbedModel }.

(** ** The world outside the interpreter *)

Inductive Stream : Type := Stdout | Stderr.

(** Library calls made by the script, in the order of the source, plus the
    marker for entering the driver. *)
Inductive Action : Type :=
  | ActSettings
  | ActLoadModel
  | ActEnterBuild
  | ActReader (input_dir : string)
  | ActLoadData
  | ActParserNew (size overlap : Z)
  | ActGetNodes (size overlap : Z) (ndocs : nat)
  | ActOpenClient (path : string)
  | ActGetOrCreate (path name : string)
  | ActEmbed (text : string)
  | ActAdd (path name : string)
  | ActIndex (nnodes : nat).

Inductive Outcome : Type := Returned | Raised.

Definition Event : Type := (Action * Outcome)%type.

(** Documents side of the file system: directory -> files; an absent key
    is a directory that does not exist. *)
Abbreviation FileSystem := (gmap string (list File)).

(** Vector store side: store path -> collection name -> records, in
    insertion order.  An absent path is a store directory that was never
    created. *)
Abbreviation Disk := (gmap string (gmap string (list StoreRecord))).

(** The levels of [logging]. *)
Inductive Level : Type := DEBUG | INFO | WARNING | ERROR | CRITICAL.

(** Whose logger a record came through: the module logger of the script
    or a logger of one of the libraries.  The format of lines 14-17 does not
    print the logger's name, so the console does not tell them apart. *)
Inductive Origin : Type := FromScript | FromLibrary.

(** [handled] lists the records the root handler has written, with their
    origin, level and message, in the order of the console. *)
Record World := {
  environ : gmap string string;
  fs : FileSystem;
  disk : Disk;
  clock : nat;
  console : list (Stream * string);
  handled : list (Origin * (Level * string));
  trace : list Event
}.

Definition set_disk (d : Disk) (w : World) : World :=
  {| environ := environ w; fs := fs w; disk := d; clock := clock w;
     console := console w; handled := handled w; trace := trace w |}.

Definition emit (s : Stream) (line : string) (w : World) : World :=
  {| environ := environ w; fs := fs w; disk := disk w; clock := S (clock w);
     console := console w ++ [(s, line)]; handled := handled w;
     trace := trace w |}.

Definition note (o : Origin) (l : Level) (msg : string) (w : World) : World :=
  {| environ := environ w; fs := fs w; disk := disk w; clock := clock w;
     console := console w; handled := handled w ++ [(o, (l, msg))];
     trace := trace w |}.

Definition record (a : Action) (o : Outcome) (w : World) : World :=
  {| environ := environ w; fs := fs w; disk := disk w; clock := clock w;
     console := console w; handled := handled w; trace := trace w ++ [(a, o)] |}.

(** What a run added: entries of [w'] beyond those already in [w]. *)
Definition trace_since (w w' : World) : list Event :=
  drop (length (trace w)) (trace w').

Definition console_since (w w' : World) : list (Stream * string) :=
  drop (length (console w)) (console w').

Definition handled_since (w w' : World) : list (Origin * (Level * string)) :=
  drop (length (handled w)) (handled w').

(** The records among [hs] that the script itself logged. *)
Definition own (hs : list (Origin * (Level * string))) : list (Level * string) :=
  map snd (List.filter
             (fun h => match h.1 with FromScript => true | FromLibrary => false end)
             hs).

(** Records of collection [name] in the store at [path]; none when either
    is absent. *)
Definition records_at (path name : string) (d : Disk) : list StoreRecord :=
  match d !! path with
  | Some db => default [] (db !! name)
  | None => []
  end.

(** ** [logging] *)

Definition levelno (l : Level) : Z :=
  match l with
  | DEBUG => 10 | INFO => 20 | WARNING => 30 | ERROR => 40 | CRITICAL => 50
  end.

Definition levelname (l : Level) : string :=
  match l with
  | DEBUG => "DEBUG" | INFO => "INFO" | WARNING => "WARNING"
  | ERROR => "ERROR" | CRITICAL => "CRITICAL"
  end.

(** A %-style format string, split at its fields. *)
Inductive FormatPart : Type :=
  | FmtAsctime
  | FmtLevelname
  | FmtMessage
  | FmtLiteral (s : string).

Record LoggingConfig := {
  root_level : Level;
  root_format : list FormatPart;
  root_stream : Stream
}.

(** [logging.basicConfig(level=..., format=..., stream=...)]: one
    [StreamHandler] on the root logger.  Without [stream] the handler is
    built as [StreamHandler()], whose stream is [sys.stderr]. *)
Definition basicConfig (level : Level) (format : list FormatPart)
    (stream : option Stream) : LoggingConfig :=
  {| root_level := level;
     root_format := format;
     root_stream := default Stderr stream |}.

(** Lines 14-17: [level=logging.INFO],
    [format='%(asctime)s - %(levelname)s - %(message)s'], no [stream]. *)
Definition logging_config : LoggingConfig :=
  basicConfig INFO
    [FmtAsctime; FmtLiteral " - "; FmtLevelname; FmtLiteral " - "; FmtMessage]
    None.

Definition render_part (t : string) (l : Level) (msg : string)
    (p : FormatPart) : string :=
  match p with
  | FmtAsctime => t
  | FmtLevelname => levelname l
  | FmtMessage => msg
  | FmtLiteral s => s
  end.

(** [Formatter.format]: the fields substituted into the format string. *)
Definition format_record (cfg : LoggingConfig) (t : string) (l : Level)
    (msg : string) : string :=
  foldr (fun p acc => render_part t l msg p +:+ acc) "" (root_format cfg).

(** The handler's terminator. *)
Definition newline : string := String (Ascii.ascii_of_nat 10) "".

Fixpoint has_line_break (s : string) : bool :=
  match s with
  | EmptyString => false
  | String a s' =>
      if Ascii.eqb a (Ascii.ascii_of_nat 10) then true else has_line_break s'
  end.


(** ** The libraries the script calls *)

(** A request to the Chroma client. *)
Inductive ChromaOp : Type :=
  | OpOpen (path : string)
  | OpGetOrCreate (path name : string)
  | OpAdd (path name : string) (r : StoreRecord).

(** Everything the script imports and calls but does not define.  Each
    call either returns or raises; what it returns is the library's
    business. *)
Class Collaborators := {
  (** [DocIngestionSettings()], reading the process environment *)
  DocIngestionSettings : gmap string string -> result Settings;
  (** [HuggingFaceEmbedding()] *)
  HuggingFaceEmbedding : unit -> result EmbedModel;
  (** [SimpleDirectoryReader(input_dir=...)]: the files it will read *)
  SimpleDirectoryReader : FileSystem -> string -> result (list File);
  (** [loader.load_data()] *)
  load_data : list File -> result (list Document);
  (** [parser.get_nodes_from_documents(documents)] *)
  get_nodes_from_documents : NodeParser -> list Document -> result (list Node);
  (** the error, if any, with which the Chroma client answers a request *)
  chroma_fault : ChromaOp -> option exn;
  (** [%(asctime)s] for a reading of the clock *)
  asctime : nat -> string;
  (** the records the libraries log, through loggers of their own that
      propagate to the root logger, while a call runs *)
  library_records : Action -> Outcome -> list (Level * string)
}.

(** Contracts of the libraries that some statements rely on. *)

(** The reader refuses a directory that does not exist. *)
Definition reader_rejects_missing `{Collaborators} : Prop :=
  forall (files : FileSystem) (dir : string),
    files !! dir = None -> exists e, SimpleDirectoryReader files dir = inl e.

(** The reader refuses a directory in which it finds no file. *)
Definition reader_rejects_empty `{Collaborators} : Prop :=
  forall (files : FileSystem) (dir : string),
    files !! dir = Some [] -> exists e, SimpleDirectoryReader files dir = inl e.

(** The embedding model returns vectors of its declared dimension. *)
Definition embedder_dimension (m : EmbedModel) : Prop :=
  forall (text : string) (v : list float64),
    get_text_embedding m text = inr v -> length v = embed_dim m.

(** ** Statements that may raise, over the world *)

Definition M (A : Type) : Type := World -> result A * World.

Definition retM {A} (x : A) : M A := fun w => (inr x, w).

Definition raiseM {A} (e : exn) : M A := fun w => (inl e, w).

Definition bindM {A B} (c : M A) (k : A -> M B) : M B :=
  fun w =>
    match c w with
    | (inl e, w') => (inl e, w')
    | (inr x, w') => k x w'
    end.

Notation "'let*' x ':=' c 'in' k" := (bindM c (fun x => k))
  (at level 10, x name, c at level 100, k at level 200).

Notation "c ';>' k" := (bindM c (fun _ => k))
  (at level 100, k at level 200, right associativity).

Definition outcome_of {A} (r : result A) : Outcome :=
  match r with inl _ => Raised | inr _ => Returned end.

Section Script.

Context `{Collaborators}.

(** *** The module logger *)

(** A record that reaches the root logger: below the root level it is
    dropped, otherwise the handler of [logging_config] writes it. *)
Definition root_handle (o : Origin) (l : Level) (msg : string) (w : World)
    : World :=
  if levelno (root_level logging_config) <=? levelno l then
    note o l msg
      (emit (root_stream logging_config)
            (format_record logging_config (asctime (clock w)) l msg +:+ newline)
            w)
  else w.

(** [logger.log(level, msg)]: the module logger has no level of its own and
    propagates to the root logger configured by [logging_config]. *)
Definition logger_log (l : Level) (msg : string) (w : World) : World :=
  root_handle FromScript l msg w.

(** The records a library logs during a call go the same way: its loggers
    have no handler of their own and propagate to the root logger. *)
Definition library_log (a : Action) (o : Outcome) (w : World) : World :=
  foldl (fun w' r => root_handle FromLibrary r.1 r.2 w') w (library_records a o).

(** A library call has completed: what it logged is on the console and
    its outcome is in the trace. *)
Definition called (a : Action) (o : Outcome) (w : World) : World :=
  record a o (library_log a o w).

(** A library call that touches nothing else of the world. *)
Definition call {A} (a : Action) (r : result A) : M A :=
  fun w => (r, called a (outcome_of r) w).

Definition logger_info (msg : string) : M unit :=
  fun w => (inr tt, logger_log INFO msg w).

Definition logger_error (msg : string) : M unit :=
  fun w => (inr tt, logger_log ERROR msg w).

(** *** Chroma *)

(** [chromadb.PersistentClient(path=...)]: the store directory is created
    when it is not there. *)
Definition open_store (path : string) (d : Disk) : Disk :=
  match d !! path with
  | Some _ => d
  | None => <[path := ∅]> d
  end.

Definition PersistentClient (path : string) : M string :=
  fun w =>
    match chroma_fault (OpOpen path) with
    | Some e => (inl e, called (ActOpenClient path) Raised w)
    | None =>
        (inr path,
         called (ActOpenClient path) Returned (set_disk (open_store path (disk w)) w))
    end.

(** Modelled from the spec: the storage engine of the vector store is not
    part of the sources.  "Created on first use (get or create --
    idempotent), otherwise reused across runs": an existing collection is
    returned as it is, a missing one is created empty. *)
Definition get_or_create (path name : string) (d : Disk) : Disk :=
  match d !! path with
  | Some db =>
      match db !! name with
      | Some _ => d
      | None => <[path := <[name := []]> db]> d
      end
  | None => <[path := {[name := []]}]> d
  end.

(** [db.get_or_create_collection(name=...)]; the collection handle is the
    pair of store path and name. *)
Definition get_or_create_collection (db : string) (name : string)
    : M (string * string) :=
  fun w =>
    match chroma_fault (OpGetOrCreate db name) with
    | Some e => (inl e, called (ActGetOrCreate db name) Raised w)
    | None =>
        (inr (db, name),
         called (ActGetOrCreate db name) Returned
                (set_disk (get_or_create db name (disk w)) w))
    end.

(** [ChromaVectorStore(chroma_collection=...)] and
    [StorageContext.from_defaults(vector_store=...)] wrap the handle. *)
Definition ChromaVectorStore (chroma_collection : string * string)
    : string * string := chroma_collection.

Definition StorageContext_from_defaults (vector_store : string * string)
    : string * string := vector_store.

(** Modelled from the spec: bulk insertion of the storage engine.  A
    record is appended to its collection; nothing already there is
    changed. *)
Definition append_record (path name : string) (r : StoreRecord) (d : Disk)
    : Disk :=
  match d !! path with
  | Some db =>
      match db !! name with
      | Some rs => <[path := <[name := rs ++ [r]]> db]> d
      | None => d
      end
  | None => d
  end.

Definition collection_add (h : string * string) (r : StoreRecord) : M unit :=
  fun w =>
    match chroma_fault (OpAdd h.1 h.2 r) with
    | Some e => (inl e, called (ActAdd h.1 h.2) Raised w)
    | None =>
        (inr tt,
         called (ActAdd h.1 h.2) Returned
                (set_disk (append_record h.1 h.2 r (disk w)) w))
    end.

(** *** Index construction *)

Definition record_of_node (n : Node) (v : list float64) : StoreRecord :=
  {| rec_id := node_id n; rec_embedding := v;
     rec_text := node_text n; rec_metadata := node_metadata n |}.

(** Modelled from the spec: index construction "computes one embedding
    vector per node and writes all (vector, text, metadata) triples into
    the collection", with no rollback when it fails part-way. *)
Fixpoint index_nodes (m : EmbedModel) (h : string * string)
    (nodes : list Node) : M unit :=
  match nodes with
  | [] => retM tt
  | n :: rest =>
      let* v := call (ActEmbed (node_text n)) (get_text_embedding m (node_text n)) in
      collection_add h (record_of_node n v) ;>
      index_nodes m h rest
  end.

(** [VectorStoreIndex(nodes, storage_context=..., vector_store=...,
    embed_model=...)] *)
Definition VectorStoreIndex (nodes : list Node)
    (storage_context vector_store : string * string) (m : EmbedModel)
    : M unit :=
  fun w =>
    match index_nodes m vector_store nodes w with
    | (r, w') => (r, called (ActIndex (length nodes)) (outcome_of r) w')
    end.

(** *** Node parser *)

(** [SimpleNodeParser.from_defaults(chunk_size=..., chunk_overlap=...)]:
    the splitter refuses an overlap larger than the chunk size. *)
Definition SimpleNodeParser_from_defaults (size overlap : Z)
    : result NodeParser :=
  if size <? overlap then
    inl (PyException "ValueError"
           ("Got a larger chunk overlap (" +:+ pretty overlap
            +:+ ") than chunk size (" +:+ pretty size
            +:+ "), should be smaller."))
  else inr {| chunk_size := size; chunk_overlap := overlap |}.

(** *** Lines 29-75 *)

(** The body of the [try] block (lines 32-72). *)
Definition try_block (g : Globals) : M Z :=
  let docs_dir_path := DOCUMENTS_DIR (settings g) in
  let vector_store_path := VECTOR_STORE_DIR (settings g) in
  let collection_name := COLLECTION_NAME (settings g) in
  logger_info ("Loading documents from directory: " +:+ docs_dir_path) ;>
  let* loader :=
    (fun w => call (ActReader docs_dir_path)
                   (SimpleDirectoryReader (fs w) docs_dir_path) w) in
  let* documents := call ActLoadData (load_data loader) in
  let* parser :=
    call (ActParserNew 1024 50) (SimpleNodeParser_from_defaults 1024 50) in
  logger_info "Parsing documents into nodes." ;>
  let* nodes :=
    call (ActGetNodes (chunk_size parser) (chunk_overlap parser)
                      (length documents))
         (get_nodes_from_documents parser documents) in
  logger_info ("Parsed " +:+ pretty (length nodes) +:+ " nodes.") ;>
  logger_info ("Initializing ChromaDB persistent client at: "
               +:+ vector_store_path) ;>
  let* db := PersistentClient vector_store_path in
  let* chroma_collection := get_or_create_collection db collection_name in
  logger_info ("Creating Chroma vector store with collection name: "
               +:+ collection_name) ;>
  let vector_store := ChromaVectorStore chroma_collection in
  let storage_context := StorageContext_from_defaults vector_store in
  logger_info "Building vector store index." ;>
  VectorStoreIndex nodes storage_context vector_store (embed_model g) ;>
  logger_info "Vector store build successfully." ;>
  retM 0.

(** [build_vector_store_from_documents()]: the value it returns and the
    world it leaves. *)
Definition build_vector_store_from_documents (g : Globals) (w : World)
    : Z * World :=
  let w0 := record ActEnterBuild Returned w in
  let w1 := logger_log INFO "Starting vector store ingestion process." w0 in
  match try_block g w1 with
  | (inr code, w2) => (code, w2)
  | (inl e, w2) =>
      (1, logger_log ERROR
            ("Error during vector store build: " +:+ str_of_exn e) w2)
  end.

(** The world in which the [try] block starts: line 30 has run. *)
Definition entered (w : World) : World :=
  logger_log INFO "Starting vector store ingestion process."
    (record ActEnterBuild Returned w).

(** *** Lines 14-26 and 78-79 *)

(** Module-level statements, run when the module is imported or executed.
    [logging.basicConfig] is [logging_config]. *)
Definition module_init : M Globals :=
  let* s := (fun w => call ActSettings (DocIngestionSettings (environ w)) w) in
  logger_info "Loading HuggingFace embedding model..." ;>
  let* m := call ActLoadModel (HuggingFaceEmbedding tt) in
  retM {| settings := s; embed_model := m |}.

(** What the interpreter prints for an exception nobody caught. *)
Definition traceback (e : exn) : string :=
  match e with
  | PyException cls msg =>
      "Traceback (most recent call last):" +:+ newline
      +:+ cls +:+ ": " +:+ msg +:+ newline
  end.

(** [python ingest_docs.py]: exit status of the process and the world it
    leaves.  The interpreter exits with status 1 after an uncaught
    exception and with status 0 when the module body runs to its end; the
    guarded statement on line 79 is a call whose value is dropped. *)
Definition run_script (w : World) : Z * World :=
  match module_init w with
  | (inl e, w1) => (1, emit Stderr (traceback e) w1)
  | (inr g, w1) =>
      match build_vector_store_from_documents g w1 with
      | (_, w2) => (0, w2)
      end
  end.

End Script.

(** ** A reference instance of the libraries

    Concrete stand-ins on which the driver can be run.  They follow what
    the specification says of each library and are used for the concrete
    runs below; the general statements hold for every instance. *)

Module Reference.

(** Modelled from the spec: the configuration loader "reads three named
    values from the environment (documents directory path, vector-store
    directory path, collection name)" and fails when one is absent.  The
    variable names are those of the attributes the driver reads. *)
Definition doc_ingestion_settings (env : gmap string string) : result Settings :=
  match env !! "DOCUMENTS_DIR", env !! "VECTOR_STORE_DIR", env !! "COLLECTION_NAME" with
  | Some d, Some v, Some c =>
      inr {| DOCUMENTS_DIR := d; VECTOR_STORE_DIR := v; COLLECTION_NAME := c |}
  | _, _, _ => inl (PyException "ValidationError" "Field required")
  end.

(** Modelled from the spec: the loader "fails if the directory does not
    exist or contains no readable documents". *)
Definition simple_directory_reader (files : FileSystem) (dir : string)
    : result (list File) :=
  match files !! dir with
  | None =>
      inl (PyException "ValueError" ("Directory " +:+ dir +:+ " does not exist."))
  | Some [] =>
      inl (PyException "ValueError" ("No files found in " +:+ dir +:+ "."))
  | Some fl => inr fl
  end.

Definition read_files (fl : list File) : result (list Document) :=
  inr (map (fun f => {| doc_text := file_content f;
                        doc_metadata := file_name f |}) fl).

(** Windows of [size] characters, each starting [step] characters after
    the previous one. *)
Fixpoint windows (fuel size step : nat) (s : string) : list string :=
  match fuel with
  | O => []
  | S fuel' =>
      if (String.length s <=? size)%nat then [s]
      else String.substring 0 size s
             :: windows fuel' size step
                  (String.substring step (String.length s - step) s)
  end.

Definition split_text (size overlap : Z) (s : string) : list string :=
  match s with
  | EmptyString => []
  | _ =>
      windows (String.length s) (Z.to_nat size) (Z.to_nat (size - overlap)) s
  end.

(** Modelled from the spec: the chunker yields "fixed-size overlapping
    text segments", here by characters; a segment keeps the metadata of
    its document. *)
Definition split_documents (p : NodeParser) (docs : list Document)
    : result (list Node) :=
  inr (concat
         (map (fun d =>
                 imap (fun i t =>
                         {| node_id := doc_metadata d +:+ "#" +:+ pretty i;
                            node_text := t;
                            node_metadata := doc_metadata d |})
                      (split_text (chunk_size p) (chunk_overlap p) (doc_text d)))
              docs)).

(** An embedding model of dimension 384. *)
Definition model : EmbedModel :=
  {| embed_dim := 384;
     get_text_embedding :=
       fun text => inr (Z.of_nat (String.length text) :: replicate 383 0) |}.

#[local] Instance collaborators : Collaborators :=
  {| DocIngestionSettings := doc_ingestion_settings;
     HuggingFaceEmbedding := fun _ => inr model;
     SimpleDirectoryReader := simple_directory_reader;
     load_data := read_files;
     get_nodes_from_documents := split_documents;
     chroma_fault := fun _ => None;
     asctime := fun t => "T" +:+ pretty t;
     library_records := fun _ _ => [] |}.

(** The same libraries in front of a store that refuses every insertion. *)
#[local] Instance read_only_store : Collaborators :=
  {| DocIngestionSettings := doc_ingestion_settings;
     HuggingFaceEmbedding := fun _ => inr model;
     SimpleDirectoryReader := simple_directory_reader;
     load_data := read_files;
     get_nodes_from_documents := split_documents;
     chroma_fault :=
       fun op =>
         match op with
         | OpAdd _ _ _ => Some (PyException "InternalError" "database is read-only")
         | _ => None
         end;
     asctime := fun t => "T" +:+ pretty t;
     library_records := fun _ _ => [] |}.

Definition the_settings : Settings :=
  {| DOCUMENTS_DIR := "docs"; VECTOR_STORE_DIR := "store";
     COLLECTION_NAME := "papers" |}.

Definition globals : Globals :=
  {| settings := the_settings; embed_model := model |}.

Definition the_environ : gmap string string :=
  {[ "DOCUMENTS_DIR" := "docs"; "VECTOR_STORE_DIR" := "store";
     "COLLECTION_NAME" := "papers" ]}.

Definition world_with (files : FileSystem) : World :=
  {| environ := the_environ; fs := files; disk := ∅; clock := 0%nat;
     console := []; handled := []; trace := [] |}.

(** No documents directory at all. *)
Definition world_missing : World := world_with ∅.

(** A documents directory without files. *)
Definition world_empty : World := world_with {[ "docs" := [] ]}.

Definition the_file : File :=
  {| file_name := "a.txt"; file_content := "retrieval augmented" |}.

Definition the_document : Document :=
  {| doc_text := "retrieval augmented"; doc_metadata := "a.txt" |}.

(** A documents directory with one short file. *)
Definition world_one : World :=
  world_with {[ "docs" := [ the_file ] ]}.

(** The world in which a second run starts right after a first one over
    [world_one]. *)
Definition world_rerun : World :=
  (build_vector_store_from_documents (H := collaborators) globals world_one).2.

(** The node the reference chunker makes of the file of [world_one]. *)
Definition the_node : Node :=
  {| node_id := "a.txt#0"; node_text := "retrieval augmented";
     node_metadata := "a.txt" |}.



(** A process started without the three variables. *)
Definition world_unconfigured : World :=
  {| environ := ∅; fs := ∅; disk := ∅; clock := 0%nat;
     console := []; handled := []; trace := [] |}.

(** A documents directory whose only file is empty: the reference chunker
    makes no node of it. *)
Definition world_blank : World :=
  world_with {[ "docs" := [ {| file_name := "e.txt"; file_content := "" |} ] ]}.

(** The same libraries in front of a store that opens but refuses to hand
    out a collection. *)
#[local] Instance no_collection_store : Collaborators :=
  {| DocIngestionSettings := doc_ingestion_settings;
     HuggingFaceEmbedding := fun _ => inr model;
     SimpleDirectoryReader := simple_directory_reader;
     load_data := read_files;
     get_nodes_from_documents := split_documents;
     chroma_fault :=
       fun op =>
         match op with
         | OpGetOrCreate _ _ =>
             Some (PyException "ValueError" "invalid collection name")
         | _ => None
         end;
     asctime := fun t => "T" +:+ pretty t;
     library_records := fun _ _ => [] |}.

(** The same libraries, now logging on their own: the model loader
    reports what it loads, the file reader warns, and the store client
    writes a debug record that the root level drops. *)
#[local] Instance talkative : Collaborators :=
  {| DocIngestionSettings := doc_ingestion_settings;
     HuggingFaceEmbedding := fun _ => inr model;
     SimpleDirectoryReader := simple_directory_reader;
     load_data := read_files;
     get_nodes_from_documents := split_documents;
     chroma_fault := fun _ => None;
     asctime := fun t => "T" +:+ pretty t;
     library_records :=
       fun a _ =>
         match a with
         | ActLoadModel => [ (INFO, "Load pretrained SentenceTransformer") ]
         | ActLoadData => [ (WARNING, "could not read metadata of a.txt") ]
         | ActOpenClient _ => [ (DEBUG, "starting component System") ]
         | _ => []
         end |}.

End Reference.

(** ** Vocabulary of the statements *)

(** Text of a log entry before the terminator. *)
Definition log_body (t : string) (l : Level) (msg : string) : string :=
  t +:+ " - " +:+ levelname l +:+ " - " +:+ msg.

(** The entry a handler writes for one record. *)
Definition log_line (t : string) (l : Level) (msg : string) : string :=
  log_body t l msg +:+ newline.

(** A console entry that is a log record at level [l] with message [msg],
    stamped with some reading of the clock and written to stream [s]. *)
Definition log_entry `{Collaborators} (s : Stream) (l : Level) (msg : string)
    (entry : Stream * string) : Prop :=
  exists now, entry = (s, log_line (asctime now) l msg).

(** The constructor of an action, as a number. *)
Definition action_tag (a : Action) : nat :=
  match a with
  | ActSettings => 0 | ActLoadModel => 1 | ActEnterBuild => 2
  | ActReader _ => 3 | ActLoadData => 4 | ActParserNew _ _ => 5
  | ActGetNodes _ _ _ => 6 | ActOpenClient _ => 7 | ActGetOrCreate _ _ => 8
  | ActEmbed _ => 9 | ActAdd _ _ => 10 | ActIndex _ => 11
  end%nat.

(** Calls written in the driver itself, as opposed to the per-node calls
    that index construction makes. *)
Definition driver_call (ev : Event) : bool :=
  match ev.1 with
  | ActReader _ | ActLoadData | ActParserNew _ _ | ActGetNodes _ _ _
  | ActOpenClient _ | ActGetOrCreate _ _ | ActIndex _ => true
  | _ => false
  end.

Definition index_event (ev : Event) : Prop :=
  match ev.1 with
  | ActEmbed _ | ActAdd _ _ => True
  | _ => False
  end.

(** The chunking parameters visible in an event are 1024 and 50. *)
Definition chunking_1024_50 (ev : Event) : Prop :=
  match ev.1 with
  | ActParserNew size overlap | ActGetNodes size overlap _ =>
      size = 1024 /\ overlap = 50
  | _ => True
  end.


Definition opens_store (ev : Event) : Prop :=
  match ev.1 with
  | ActOpenClient _ => True
  | _ => False
  end.

(** A record that holds node [n] with an embedding computed by [m]. *)
Definition embeds (m : EmbedModel) (n : Node) (r : StoreRecord) : Prop :=
  get_text_embedding m (node_text n) = inr (rec_embedding r)
  /\ rec_id r = node_id n /\ rec_text r = node_text n
  /\ rec_metadata r = node_metadata n.

(** From [d] to [d'] every collection only gained records, each of them
    satisfying [P]. *)
Definition grows_by (P : StoreRecord -> Prop) (d d' : Disk) : Prop :=
  forall path name, exists new,
    records_at path name d' = records_at path name d ++ new /\ Forall P new.

Definition collection_exists (path name : string) (d : Disk) : Prop :=
  exists db rs, d !! path = Some db /\ db !! name = Some rs.

(** The documents of a run reach the parser and come back as [nodes]. *)
Definition loads_and_parses `{Collaborators} (g : Globals) (w : World)
    (nodes : list Node) : Prop :=
  exists files docs,
    SimpleDirectoryReader (fs w) (DOCUMENTS_DIR (settings g)) = inr files
    /\ load_data files = inr docs
    /\ get_nodes_from_documents {| chunk_size := 1024; chunk_overlap := 50 |} docs
       = inr nodes.

(** ** Executions of the driver *)

Section Executions.

Context `{Collaborators}.

Variable g : Globals.

Let dir := DOCUMENTS_DIR (settings g).
Let p := VECTOR_STORE_DIR (settings g).
Let c := COLLECTION_NAME (settings g).

(** The records the driver logs, by message. *)
Definition msg_start : Level * string :=
  (INFO, "Starting vector store ingestion process.").
Definition msg_loading : Level * string :=
  (INFO, "Loading documents from directory: " +:+ DOCUMENTS_DIR (settings g)).
Definition msg_parsing : Level * string :=
  (INFO, "Parsing documents into nodes.").
Definition msg_parsed (n : nat) : Level * string :=
  (INFO, "Parsed " +:+ pretty n +:+ " nodes.").
Definition msg_client : Level * string :=
  (INFO, "Initializing ChromaDB persistent client at: "
         +:+ VECTOR_STORE_DIR (settings g)).
Definition msg_collection : Level * string :=
  (INFO, "Creating Chroma vector store with collection name: "
         +:+ COLLECTION_NAME (settings g)).
Definition msg_building : Level * string :=
  (INFO, "Building vector store index.").
Definition msg_success : Level * string :=
  (INFO, "Vector store build successfully.").
Definition msg_failure (e : exn) : Level * string :=
  (ERROR, "Error during vector store build: " +:+ str_of_exn e).

(** Events up to and including a parse that returned. *)
Definition events_parsed (ndocs : nat) : list Event :=
  [ (ActEnterBuild, Returned); (ActReader dir, Returned);
    (ActLoadData, Returned); (ActParserNew 1024 50, Returned);
    (ActGetNodes 1024 50 ndocs, Returned) ].

(** [Run w code events records d]: started in [w], the driver returns
    [code], having completed [events], logged [records] itself (what the
    libraries log on the way is no part of them) and left the store as
    [d].  One rule per place where the [try] block can end. *)
Inductive Run (w : World)
    : Z -> list Event -> list (Level * string) -> Disk -> Prop :=
  | RunReaderFails e :
      SimpleDirectoryReader (fs w) dir = inl e ->
      Run w 1
        [ (ActEnterBuild, Returned); (ActReader dir, Raised) ]
        [ msg_start; msg_loading; msg_failure e ]
        (disk w)
  | RunLoadFails files e :
      SimpleDirectoryReader (fs w) dir = inr files ->
      load_data files = inl e ->
      Run w 1
        [ (ActEnterBuild, Returned); (ActReader dir, Returned);
          (ActLoadData, Raised) ]
        [ msg_start; msg_loading; msg_failure e ]
        (disk w)
  | RunParseFails files docs e :
      SimpleDirectoryReader (fs w) dir = inr files ->
      load_data files = inr docs ->
      get_nodes_from_documents {| chunk_size := 1024; chunk_overlap := 50 |} docs
        = inl e ->
      Run w 1
        [ (ActEnterBuild, Returned); (ActReader dir, Returned);
          (ActLoadData, Returned); (ActParserNew 1024 50, Returned);
          (ActGetNodes 1024 50 (length docs), Raised) ]
        [ msg_start; msg_loading; msg_parsing; msg_failure e ]
        (disk w)
  | RunOpenFails files docs nodes e :
      SimpleDirectoryReader (fs w) dir = inr files ->
      load_data files = inr docs ->
      get_nodes_from_documents {| chunk_size := 1024; chunk_overlap := 50 |} docs
        = inr nodes ->
      chroma_fault (OpOpen p) = Some e ->
      Run w 1
        (events_parsed (length docs) ++ [ (ActOpenClient p, Raised) ])
        [ msg_start; msg_loading; msg_parsing; msg_parsed (length nodes);
          msg_client; msg_failure e ]
        (disk w)
  | RunCollectionFails files docs nodes e :
      SimpleDirectoryReader (fs w) dir = inr files ->
      load_data files = inr docs ->
      get_nodes_from_documents {| chunk_size := 1024; chunk_overlap := 50 |} docs
        = inr nodes ->
      chroma_fault (OpOpen p) = None ->
      chroma_fault (OpGetOrCreate p c) = Some e ->
      Run w 1
        (events_parsed (length docs)
         ++ [ (ActOpenClient p, Returned); (ActGetOrCreate p c, Raised) ])
        [ msg_start; msg_loading; msg_parsing; msg_parsed (length nodes);
          msg_client; msg_failure e ]
        (open_store p (disk w))
  | RunIndexFails files docs nodes e evs d :
      SimpleDirectoryReader (fs w) dir = inr files ->
      load_data files = inr docs ->
      get_nodes_from_documents {| chunk_size := 1024; chunk_overlap := 50 |} docs
        = inr nodes ->
      chroma_fault (OpOpen p) = None ->
      chroma_fault (OpGetOrCreate p c) = None ->
      Forall index_event evs ->
      grows_by (fun r => exists n, n ∈ nodes /\ embeds (embed_model g) n r)
               (disk w) d ->
      Run w 1
        (events_parsed (length docs)
         ++ [ (ActOpenClient p, Returned); (ActGetOrCreate p c, Returned) ]
         ++ evs ++ [ (ActIndex (length nodes), Raised) ])
        [ msg_start; msg_loading; msg_parsing; msg_parsed (length nodes);
          msg_client; msg_collection; msg_building; msg_failure e ]
        d
  | RunCompletes files docs nodes evs recs d :
      SimpleDirectoryReader (fs w) dir = inr files ->
      load_data files = inr docs ->
      get_nodes_from_documents {| chunk_size := 1024; chunk_overlap := 50 |} docs
        = inr nodes ->
      chroma_fault (OpOpen p) = None ->
      chroma_fault (OpGetOrCreate p c) = None ->
      Forall index_event evs ->
      grows_by (fun r => exists n, n ∈ nodes /\ embeds (embed_model g) n r)
               (disk w) d ->
      records_at p c d = records_at p c (disk w) ++ recs ->
      Forall2 (embeds (embed_model g)) nodes recs ->
      Run w 0
        (events_parsed (length docs)
         ++ [ (ActOpenClient p, Returned); (ActGetOrCreate p c, Returned) ]
         ++ evs ++ [ (ActIndex (length nodes), Returned) ])
        [ msg_start; msg_loading; msg_parsing; msg_parsed (length nodes);
          msg_client; msg_collection; msg_building; msg_success ]
        d.

End Executions.

(** The records of a run that completes, in the order of the source;
    [nnodes] is the number the parser returned. *)
Definition success_records (g : Globals) (nnodes : nat)
    : list (Level * string) :=
  [ msg_start; msg_loading g; msg_parsing; msg_parsed nnodes;
    msg_client g; msg_collection g; msg_building; msg_success ].

(** The event names nothing but the configured documents directory, store
    path and collection. *)
Definition names_configured (g : Globals) (ev : Event) : Prop :=
  match ev.1 with
  | ActReader d => d = DOCUMENTS_DIR (settings g)
  | ActOpenClient q => q = VECTOR_STORE_DIR (settings g)
  | ActGetOrCreate q n | ActAdd q n =>
      q = VECTOR_STORE_DIR (settings g) /\ n = COLLECTION_NAME (settings g)
  | _ => True
  end.

(** A record passes the level of the root logger. *)
Definition passes (r : Level * string) : bool :=
  levelno (root_level logging_config) <=? levelno r.1.

(** The library records of one call that the root handler writes. *)
Definition library_handled `{Collaborators} (a : Action) (o : Outcome)
    : list (Origin * (Level * string)) :=
  map (pair FromLibrary) (List.filter passes (library_records a o)).

(** The console entries of the records [rs], from clock reading [t] on. *)
Fixpoint library_lines `{Collaborators} (t : nat) (rs : list (Level * string))
    : list (Stream * string) :=
  match rs with
  | [] => []
  | r :: rest =>
      if passes r then
        (Stderr, log_line (asctime t) r.1 r.2) :: library_lines (S t) rest
      else library_lines t rest
  end.

(** The console entry is the handled record, formatted and written to
    standard error. *)
Definition rendered `{Collaborators} (h : Origin * (Level * string))
    (entry : Stream * string) : Prop :=
  log_entry Stderr h.2.1 h.2.2 entry.

(** The record is one of the script at INFO or ERROR level, or one of a
    library at the root level or above. *)
Definition level_allowed (h : Origin * (Level * string)) : Prop :=
  match h.1 with
  | FromScript => h.2.1 = INFO \/ h.2.1 = ERROR
  | FromLibrary => levelno INFO <= levelno h.2.1
  end.

(** Between [w] and [w'] the root handler wrote the console entries
    [lines]: they are the formatted records it handled, those of the
    script among them are [records], and every level is allowed. *)
Definition logs_of `{Collaborators} (w w' : World)
    (records : list (Level * string)) (lines : list (Stream * string)) : Prop :=
  exists hs,
    handled w' = handled w ++ hs
    /\ Forall2 rendered hs lines
    /\ own hs = records
    /\ Forall level_allowed hs.


(** * Properties *)

Section Facts.

Context `{Collaborators}.

(** ** Logging *)

Lemma append_empty_r (s : string) : s +:+ "" = s.
Proof.
  induction s as [|a s IH]; [reflexivity|].
  change (String a (s +:+ "") = String a s). by rewrite IH.
Qed.

Lemma format_record_body t l msg :
  format_record logging_config t l msg = log_body t l msg.
Proof.
  unfold format_record, log_body. cbn [logging_config basicConfig root_format foldr render_part].
  by rewrite append_empty_r.
Qed.

Lemma root_handle_passes o l msg w :
  passes (l, msg) = true ->
  root_handle o l msg w
  = note o l msg (emit Stderr (log_line (asctime (clock w)) l msg) w).
Proof.
  unfold passes, root_handle, log_line. cbn [fst]. intros ->.
  by rewrite format_record_body.
Qed.

Lemma root_handle_dropped o l msg w :
  passes (l, msg) = false -> root_handle o l msg w = w.
Proof. unfold passes, root_handle. cbn [fst]. by intros ->. Qed.

Lemma logger_log_INFO msg w :
  logger_log INFO msg w
  = note FromScript INFO msg
      (emit Stderr (log_line (asctime (clock w)) INFO msg) w).
Proof. by apply root_handle_passes. Qed.

Lemma logger_log_ERROR msg w :
  logger_log ERROR msg w
  = note FromScript ERROR msg
      (emit Stderr (log_line (asctime (clock w)) ERROR msg) w).
Proof. by apply root_handle_passes. Qed.

Lemma has_line_break_app s1 s2 :
  has_line_break (s1 +:+ s2) = has_line_break s1 || has_line_break s2.
Proof.
  induction s1 as [|a s1 IH]; [reflexivity|].
  change (has_line_break (String a (s1 +:+ s2))
          = has_line_break (String a s1) || has_line_break s2).
  simpl. destruct (Ascii.eqb a _); [reflexivity | exact IH].
Qed.


Lemma log_line_ends_line t l msg :
  has_line_break (log_line t l msg) = true.
Proof.
  unfold log_line. rewrite has_line_break_app. apply orb_true_r.
Qed.

(** ** Projections of the world after each primitive *)

Lemma trace_root_handle o l msg w : trace (root_handle o l msg w) = trace w.
Proof. unfold root_handle. by destruct (_ <=? _). Qed.
Lemma disk_root_handle o l msg w : disk (root_handle o l msg w) = disk w.
Proof. unfold root_handle. by destruct (_ <=? _). Qed.
Lemma fs_root_handle o l msg w : fs (root_handle o l msg w) = fs w.
Proof. unfold root_handle. by destruct (_ <=? _). Qed.
Lemma environ_root_handle o l msg w :
  environ (root_handle o l msg w) = environ w.
Proof. unfold root_handle. by destruct (_ <=? _). Qed.

Lemma trace_logger_log l msg w : trace (logger_log l msg w) = trace w.
Proof. apply trace_root_handle. Qed.
Lemma disk_logger_log l msg w : disk (logger_log l msg w) = disk w.
Proof. apply disk_root_handle. Qed.
Lemma fs_logger_log l msg w : fs (logger_log l msg w) = fs w.
Proof. apply fs_root_handle. Qed.
Lemma environ_logger_log l msg w : environ (logger_log l msg w) = environ w.
Proof. apply environ_root_handle. Qed.
Lemma handled_logger_log_INFO msg w :
  handled (logger_log INFO msg w) = handled w ++ [(FromScript, (INFO, msg))].
Proof. by rewrite logger_log_INFO. Qed.
Lemma handled_logger_log_ERROR msg w :
  handled (logger_log ERROR msg w) = handled w ++ [(FromScript, (ERROR, msg))].
Proof. by rewrite logger_log_ERROR. Qed.
Lemma clock_logger_log_INFO msg w : clock (logger_log INFO msg w) = S (clock w).
Proof. by rewrite logger_log_INFO. Qed.
Lemma clock_logger_log_ERROR msg w : clock (logger_log ERROR msg w) = S (clock w).
Proof. by rewrite logger_log_ERROR. Qed.
Lemma console_logger_log_INFO msg w :
  console (logger_log INFO msg w)
  = console w ++ [(Stderr, log_line (asctime (clock w)) INFO msg)].
Proof. by rewrite logger_log_INFO. Qed.
Lemma console_logger_log_ERROR msg w :
  console (logger_log ERROR msg w)
  = console w ++ [(Stderr, log_line (asctime (clock w)) ERROR msg)].
Proof. by rewrite logger_log_ERROR. Qed.

(** What the libraries log during a call changes the console, the handled
    records and the clock, and nothing else. *)
Lemma handle_all_effect rs :
  forall w,
    let w' := foldl (fun w' r => root_handle FromLibrary r.1 r.2 w') w rs in
    trace w' = trace w /\ disk w' = disk w /\ fs w' = fs w
    /\ environ w' = environ w
    /\ handled w' = handled w ++ map (pair FromLibrary) (List.filter passes rs)
    /\ console w' = console w ++ library_lines (clock w) rs
    /\ clock w' = (clock w + length (List.filter passes rs))%nat.
Proof.
  induction rs as [|[l msg] rs IH]; intros w; simpl.
  - rewrite !app_nil_r. repeat split; lia.
  - destruct (IH (root_handle FromLibrary l msg w))
      as (Ht & Hd & Hf & He & Hh & Hc & Hk).
    rewrite Ht, Hd, Hf, He, Hh, Hc, Hk.
    rewrite trace_root_handle, disk_root_handle, fs_root_handle,
      environ_root_handle.
    destruct (passes (l, msg)) eqn:Hp.
    + rewrite (root_handle_passes _ _ _ _ Hp). simpl.
      rewrite <- !app_assoc. repeat split; lia.
    + rewrite (root_handle_dropped _ _ _ _ Hp). repeat split.
Qed.

Lemma trace_library_log a o w : trace (library_log a o w) = trace w.
Proof. apply (handle_all_effect (library_records a o) w). Qed.
Lemma disk_library_log a o w : disk (library_log a o w) = disk w.
Proof. apply (handle_all_effect (library_records a o) w). Qed.
Lemma fs_library_log a o w : fs (library_log a o w) = fs w.
Proof. apply (handle_all_effect (library_records a o) w). Qed.
Lemma environ_library_log a o w : environ (library_log a o w) = environ w.
Proof. apply (handle_all_effect (library_records a o) w). Qed.
Lemma handled_library_log a o w :
  handled (library_log a o w) = handled w ++ library_handled a o.
Proof. apply (handle_all_effect (library_records a o) w). Qed.
Lemma console_library_log a o w :
  console (library_log a o w)
  = console w ++ library_lines (clock w) (library_records a o).
Proof. apply (handle_all_effect (library_records a o) w). Qed.
Lemma clock_library_log a o w :
  clock (library_log a o w) = (clock w + length (library_handled a o))%nat.
Proof.
  unfold library_handled. rewrite length_map.
  apply (handle_all_effect (library_records a o) w).
Qed.

Lemma trace_called a o w : trace (called a o w) = trace w ++ [(a, o)].
Proof. unfold called. simpl. by rewrite trace_library_log. Qed.
Lemma disk_called a o w : disk (called a o w) = disk w.
Proof. unfold called. simpl. by rewrite disk_library_log. Qed.
Lemma fs_called a o w : fs (called a o w) = fs w.
Proof. unfold called. simpl. by rewrite fs_library_log. Qed.
Lemma environ_called a o w : environ (called a o w) = environ w.
Proof. unfold called. simpl. by rewrite environ_library_log. Qed.
Lemma handled_called a o w :
  handled (called a o w) = handled w ++ library_handled a o.
Proof. unfold called. simpl. by rewrite handled_library_log. Qed.
Lemma console_called a o w :
  console (called a o w)
  = console w ++ library_lines (clock w) (library_records a o).
Proof. unfold called. simpl. by rewrite console_library_log. Qed.
Lemma clock_called a o w :
  clock (called a o w) = (clock w + length (library_handled a o))%nat.
Proof. unfold called. simpl. by rewrite clock_library_log. Qed.

(** The entries of library records are those records, formatted. *)
Lemma library_rendered t rs :
  Forall2 rendered (map (pair FromLibrary) (List.filter passes rs))
    (library_lines t rs).
Proof.
  revert t. induction rs as [|r rs IH]; intros t; simpl; [constructor|].
  destruct (passes r); [|by apply IH].
  simpl. constructor; [by exists t | by apply IH].
Qed.

Lemma own_app hs1 hs2 : own (hs1 ++ hs2) = own hs1 ++ own hs2.
Proof. unfold own. by rewrite List.filter_app, map_app. Qed.

Lemma own_library (rs : list (Level * string)) :
  own (map (pair FromLibrary) rs) = [].
Proof. induction rs as [|r rs IH]; [reflexivity | exact IH]. Qed.

Lemma own_library_handled a o : own (library_handled a o) = [].
Proof. apply own_library. Qed.

Lemma library_handled_levels a o :
  Forall level_allowed (library_handled a o).
Proof.
  unfold library_handled.
  induction (library_records a o) as [|r rs IH]; simpl; [constructor|].
  destruct (passes r) eqn:Hp; [|exact IH].
  simpl. constructor; [|exact IH].
  unfold level_allowed. simpl. unfold passes in Hp.
  by apply Z.leb_le in Hp.
Qed.

Lemma trace_note o l msg w : trace (note o l msg w) = trace w.
Proof. reflexivity. Qed.
Lemma console_note o l msg w : console (note o l msg w) = console w.
Proof. reflexivity. Qed.
Lemma disk_note o l msg w : disk (note o l msg w) = disk w.
Proof. reflexivity. Qed.
Lemma fs_note o l msg w : fs (note o l msg w) = fs w.
Proof. reflexivity. Qed.
Lemma clock_note o l msg w : clock (note o l msg w) = clock w.
Proof. reflexivity. Qed.
Lemma environ_note o l msg w : environ (note o l msg w) = environ w.
Proof. reflexivity. Qed.
Lemma handled_note o l msg w :
  handled (note o l msg w) = handled w ++ [(o, (l, msg))].
Proof. reflexivity. Qed.
Lemma handled_emit s line w : handled (emit s line w) = handled w.
Proof. reflexivity. Qed.
Lemma handled_record a o w : handled (record a o w) = handled w.
Proof. reflexivity. Qed.
Lemma handled_set_disk d w : handled (set_disk d w) = handled w.
Proof. reflexivity. Qed.

Lemma trace_emit s line w : trace (emit s line w) = trace w.
Proof. reflexivity. Qed.
Lemma trace_record a o w : trace (record a o w) = trace w ++ [(a, o)].
Proof. reflexivity. Qed.
Lemma trace_set_disk d w : trace (set_disk d w) = trace w.
Proof. reflexivity. Qed.
Lemma console_emit s line w : console (emit s line w) = console w ++ [(s, line)].
Proof. reflexivity. Qed.
Lemma console_record a o w : console (record a o w) = console w.
Proof. reflexivity. Qed.
Lemma console_set_disk d w : console (set_disk d w) = console w.
Proof. reflexivity. Qed.
Lemma disk_emit s line w : disk (emit s line w) = disk w.
Proof. reflexivity. Qed.
Lemma disk_record a o w : disk (record a o w) = disk w.
Proof. reflexivity. Qed.
Lemma disk_set_disk d w : disk (set_disk d w) = d.
Proof. reflexivity. Qed.
Lemma fs_emit s line w : fs (emit s line w) = fs w.
Proof. reflexivity. Qed.
Lemma fs_record a o w : fs (record a o w) = fs w.
Proof. reflexivity. Qed.
Lemma fs_set_disk d w : fs (set_disk d w) = fs w.
Proof. reflexivity. Qed.
Lemma clock_emit s line w : clock (emit s line w) = S (clock w).
Proof. reflexivity. Qed.
Lemma clock_record a o w : clock (record a o w) = clock w.
Proof. reflexivity. Qed.
Lemma clock_set_disk d w : clock (set_disk d w) = clock w.
Proof. reflexivity. Qed.
Lemma environ_emit s line w : environ (emit s line w) = environ w.
Proof. reflexivity. Qed.
Lemma environ_record a o w : environ (record a o w) = environ w.
Proof. reflexivity. Qed.
Lemma environ_set_disk d w : environ (set_disk d w) = environ w.
Proof. reflexivity. Qed.

End Facts.

Create Rewrite HintDb world.

#[export] Hint Rewrite @trace_logger_log @disk_logger_log @fs_logger_log
  @environ_logger_log @clock_logger_log_INFO @clock_logger_log_ERROR
  @console_logger_log_INFO @console_logger_log_ERROR
  @handled_logger_log_INFO @handled_logger_log_ERROR
  @trace_called @disk_called @fs_called @environ_called @handled_called
  @console_called @clock_called
  @trace_library_log @disk_library_log @fs_library_log @environ_library_log
  @handled_library_log @console_library_log @clock_library_log
  trace_note console_note disk_note fs_note clock_note environ_note
  handled_note handled_emit handled_record handled_set_disk
  trace_emit trace_record trace_set_disk
  console_emit console_record console_set_disk
  disk_emit disk_record disk_set_disk
  fs_emit fs_record fs_set_disk clock_emit clock_record clock_set_disk
  environ_emit environ_record environ_set_disk : world.

Arguments emit : simpl never.
Arguments record : simpl never.
Arguments set_disk : simpl never.
Arguments logger_log : simpl never.
Arguments note : simpl never.
Arguments called : simpl never.
Arguments library_log : simpl never.
Arguments log_line : simpl never.

(** ** The store *)

Section StoreFacts.

Context `{Collaborators}.

Lemma records_at_open_store path name p (d : Disk) :
  records_at path name (open_store p d) = records_at path name d.
Proof.
  unfold open_store. destruct (d !! p) eqn:Hp; [reflexivity|].
  unfold records_at. destruct (decide (p = path)) as [->|Hne].
  - by rewrite lookup_insert_eq, Hp, lookup_empty.
  - by rewrite lookup_insert_ne.
Qed.

Lemma records_at_get_or_create path name p c (d : Disk) :
  records_at path name (get_or_create p c d) = records_at path name d.
Proof.
  unfold get_or_create, records_at.
  destruct (d !! p) as [db|] eqn:Hp.
  - destruct (db !! c) eqn:Hc; [reflexivity|].
    destruct (decide (p = path)) as [->|Hne].
    + rewrite lookup_insert_eq, Hp.
      destruct (decide (c = name)) as [->|Hne].
      * by rewrite lookup_insert_eq, Hc.
      * by rewrite lookup_insert_ne.
    + by rewrite lookup_insert_ne.
  - destruct (decide (p = path)) as [->|Hne].
    + rewrite lookup_insert_eq, Hp.
      destruct (decide (c = name)) as [->|Hne].
      * by rewrite lookup_singleton_eq.
      * by rewrite lookup_singleton_ne.
    + by rewrite lookup_insert_ne.
Qed.

Lemma records_at_append_record path name p c r (d : Disk) :
  exists new,
    records_at path name (append_record p c r d) = records_at path name d ++ new
    /\ (new = [] \/ new = [r]).
Proof.
  unfold append_record, records_at.
  destruct (d !! p) as [db|] eqn:Hp; [|exists []; by rewrite app_nil_r; auto].
  destruct (db !! c) as [rs|] eqn:Hc; [|exists []; by rewrite app_nil_r; auto].
  destruct (decide (p = path)) as [->|Hne].
  - rewrite lookup_insert_eq, Hp.
    destruct (decide (c = name)) as [->|Hne].
    + exists [r]. rewrite lookup_insert_eq, Hc. simpl. auto.
    + exists []. rewrite lookup_insert_ne by done. rewrite app_nil_r. auto.
  - exists []. rewrite lookup_insert_ne by done. rewrite app_nil_r. auto.
Qed.

Lemma records_at_append_same path name r (d : Disk) :
  collection_exists path name d ->
  records_at path name (append_record path name r d)
  = records_at path name d ++ [r].
Proof.
  intros (db & rs & Hp & Hc). unfold append_record, records_at.
  by rewrite Hp, Hc, lookup_insert_eq, lookup_insert_eq.
Qed.

Lemma collection_exists_append path name r (d : Disk) :
  collection_exists path name d ->
  collection_exists path name (append_record path name r d).
Proof.
  intros (db & rs & Hp & Hc). unfold append_record. rewrite Hp, Hc.
  exists (<[name := rs ++ [r]]> db), (rs ++ [r]).
  by rewrite !lookup_insert_eq.
Qed.

Lemma collection_exists_get_or_create path name (d : Disk) :
  collection_exists path name (get_or_create path name d).
Proof.
  unfold get_or_create, collection_exists.
  destruct (d !! path) as [db|] eqn:Hp.
  - destruct (db !! name) as [rs|] eqn:Hc; [by eauto|].
    exists (<[name := []]> db), []. by rewrite !lookup_insert_eq.
  - exists {[name := []]}, []. by rewrite lookup_insert_eq, lookup_singleton_eq.
Qed.

Lemma grows_by_refl P (d : Disk) : grows_by P d d.
Proof. intros path name. exists []. by rewrite app_nil_r. Qed.

Lemma grows_by_trans P (d1 d2 d3 : Disk) :
  grows_by P d1 d2 -> grows_by P d2 d3 -> grows_by P d1 d3.
Proof.
  intros H12 H23 path name.
  destruct (H12 path name) as (n1 & E1 & F1).
  destruct (H23 path name) as (n2 & E2 & F2).
  exists (n1 ++ n2). rewrite E2, E1, app_assoc. split; [done|].
  by apply Forall_app.
Qed.

Lemma grows_by_weaken (P Q : StoreRecord -> Prop) (d d' : Disk) :
  (forall r, P r -> Q r) -> grows_by P d d' -> grows_by Q d d'.
Proof.
  intros HPQ Hg path name. destruct (Hg path name) as (new & E & F).
  exists new. split; [done|]. eapply Forall_impl; eauto.
Qed.

Lemma grows_by_open_store P p (d : Disk) : grows_by P d (open_store p d).
Proof.
  intros path name. exists []. by rewrite records_at_open_store, app_nil_r.
Qed.

Lemma grows_by_get_or_create P p c (d : Disk) :
  grows_by P d (get_or_create p c d).
Proof.
  intros path name. exists []. by rewrite records_at_get_or_create, app_nil_r.
Qed.

Lemma grows_by_append (P : StoreRecord -> Prop) p c r (d : Disk) :
  P r -> grows_by P d (append_record p c r d).
Proof.
  intros HP path name.
  destruct (records_at_append_record path name p c r d) as (new & E & [->| ->]).
  - exists []. by split.
  - exists [r]. split; [done|]. by constructor.
Qed.

End StoreFacts.

(** The console entries of a sequence of handled records, piece by
    piece. *)
Ltac piece_rendered :=
  first [ assumption
        | apply library_rendered
        | (constructor; [by eexists | constructor])
        | constructor ].

Ltac all_rendered :=
  repeat (apply Forall2_app; [piece_rendered|]); piece_rendered.

Ltac own_pieces :=
  rewrite ?own_app, ?own_library_handled;
  repeat match goal with Ho : own _ = _ |- _ => rewrite Ho; clear Ho end;
  reflexivity.

Ltac piece_level :=
  first [ assumption
        | apply library_handled_levels
        | (constructor; [unfold level_allowed; simpl; auto | constructor])
        | constructor ].

Ltac level_pieces := rewrite ?Forall_app; repeat split; piece_level.

(** ** Index construction *)

Section IndexFacts.

Context `{Collaborators}.

(** Whatever its outcome, index construction only makes embed and add
    calls, only appends records that embed one of the nodes, and puts on
    the console nothing but what the libraries log. *)
Lemma index_nodes_effect m h nodes :
  forall w r w', index_nodes m h nodes w = (r, w') ->
    (exists lines, console w' = console w ++ lines /\ logs_of w w' [] lines)
    /\ fs w' = fs w /\ environ w' = environ w
    /\ (exists evs, trace w' = trace w ++ evs /\ Forall index_event evs)
    /\ grows_by (fun rec => exists n, n ∈ nodes /\ embeds m n rec)
                (disk w) (disk w').
Proof.
  induction nodes as [|n rest IH]; intros w r w' Hrun.
  - inversion Hrun; subst. split; [|split; [done|split; [done|split]]].
    + exists []. rewrite app_nil_r. split; [done|]. exists [].
      rewrite app_nil_r. split; [done|]. split; [constructor|].
      split; [done | constructor].
    + exists []. by rewrite app_nil_r.
    + apply grows_by_refl.
  - simpl in Hrun. unfold bindM, call, collection_add in Hrun.
    destruct (get_text_embedding m (node_text n)) as [e|v] eqn:Hv.
    { inversion Hrun; subst. autorewrite with world.
      split; [|split; [done|split; [done|split]]].
      - eexists. split; [reflexivity|]. eexists.
        autorewrite with world. split; [reflexivity|].
        split; [all_rendered|]. split; [own_pieces | level_pieces].
      - eexists. split; [reflexivity|]. by repeat constructor.
      - apply grows_by_refl. }
    simpl in Hrun.
    destruct (chroma_fault (OpAdd h.1 h.2 (record_of_node n v))) as [e|] eqn:Hf.
    { inversion Hrun; subst. autorewrite with world.
      split; [|split; [done|split; [done|split]]].
      - eexists. rewrite <- ?app_assoc. split; [reflexivity|]. eexists.
        autorewrite with world. rewrite <- ?app_assoc. split; [reflexivity|].
        split; [all_rendered|]. split; [own_pieces | level_pieces].
      - eexists. rewrite <- app_assoc. split; [reflexivity|].
        by repeat constructor.
      - apply grows_by_refl. }
    apply IH in Hrun. autorewrite with world in Hrun.
    destruct Hrun as ((lines & Hc & hs & Hh & Hren & Hown & Hlev)
                      & Hfs & Henv & (evs & Htr & Hev) & Hg).
    autorewrite with world in Hh.
    split; [|split; [done|split; [done|split]]].
    + eexists. rewrite Hc, <- ?app_assoc. split; [reflexivity|]. eexists.
      rewrite Hh, <- ?app_assoc. split; [reflexivity|].
      split; [all_rendered|]. split; [own_pieces | level_pieces].
    + eexists. rewrite Htr, <- !app_assoc. split; [reflexivity|].
      simpl. by repeat constructor.
    + eapply grows_by_trans.
      * apply (grows_by_append _ h.1 h.2 (record_of_node n v)).
        exists n. split; [by left|]. by repeat split.
      * eapply grows_by_weaken; [|exact Hg].
        intros rec (n' & Hin & Hemb). exists n'. split; [by right|done].
Qed.

(** When it returns, the collection has gained one record per node, in
    the order of the nodes. *)
Lemma index_nodes_done m h nodes :
  forall w w', index_nodes m h nodes w = (inr tt, w') ->
    collection_exists h.1 h.2 (disk w) ->
    collection_exists h.1 h.2 (disk w')
    /\ exists recs,
         records_at h.1 h.2 (disk w') = records_at h.1 h.2 (disk w) ++ recs
         /\ Forall2 (embeds m) nodes recs.
Proof.
  induction nodes as [|n rest IH]; intros w w' Hrun Hex.
  - inversion Hrun; subst. split; [done|]. exists []. by rewrite app_nil_r.
  - simpl in Hrun. unfold bindM, call, collection_add in Hrun.
    destruct (get_text_embedding m (node_text n)) as [e|v] eqn:Hv; [done|].
    simpl in Hrun.
    destruct (chroma_fault (OpAdd h.1 h.2 (record_of_node n v))) as [e|] eqn:Hf;
      [done|].
    apply IH in Hrun; autorewrite with world in *.
    + destruct Hrun as (Hex' & recs & Hrecs & Hall). split; [done|].
      exists (record_of_node n v :: recs).
      rewrite Hrecs, records_at_append_same, <- app_assoc by done.
      split; [done|]. constructor; [by repeat split | done].
    + by apply collection_exists_append.
Qed.

End IndexFacts.

(** Membership in a list that is written out. *)
Ltac in_list :=
  apply list_elem_of_In; rewrite ?in_app_iff; simpl; tauto.

(** Closes the bookkeeping goals of one rule: the trace, the console and
    the records behind it. *)
Ltac close_run :=
  cbn [fst snd outcome_of]; autorewrite with world;
  split; [rewrite <- ?app_assoc; reflexivity|];
  split; [rewrite <- ?app_assoc; reflexivity|];
  split; [|reflexivity];
  eexists; autorewrite with world;
  split; [rewrite <- ?app_assoc; reflexivity|];
  split; [all_rendered|]; split; [own_pieces | level_pieces].

Section DriverFacts.

Context `{Collaborators}.

Lemma build_run g w :
  exists evs records lines d,
    Run g w (build_vector_store_from_documents g w).1 evs records d
    /\ trace (build_vector_store_from_documents g w).2 = trace w ++ evs
    /\ console (build_vector_store_from_documents g w).2 = console w ++ lines
    /\ logs_of w (build_vector_store_from_documents g w).2 records lines
    /\ disk (build_vector_store_from_documents g w).2 = d.
Proof.
  unfold build_vector_store_from_documents, try_block, bindM, call,
    logger_info, retM.
  rewrite !fs_logger_log, !fs_record.
  destruct (SimpleDirectoryReader (fs w) _) as [e|files] eqn:Hreader.
  { do 4 eexists. split; [by eapply RunReaderFails|]. close_run. }
  destruct (load_data files) as [e|docs] eqn:Hload.
  { do 4 eexists. split; [by eapply RunLoadFails|]. close_run. }
  cbn [SimpleNodeParser_from_defaults Z.ltb Z.compare Pos.compare
       Pos.compare_cont chunk_size chunk_overlap].
  destruct (get_nodes_from_documents _ docs) as [e|nodes] eqn:Hparse.
  { do 4 eexists. split; [by eapply RunParseFails|]. close_run. }
  unfold PersistentClient.
  destruct (chroma_fault (OpOpen _)) as [e|] eqn:Hopen.
  { do 4 eexists. split; [by eapply RunOpenFails|]. close_run. }
  unfold get_or_create_collection.
  destruct (chroma_fault (OpGetOrCreate _ _)) as [e|] eqn:Hcoll.
  { do 4 eexists. split; [by eapply RunCollectionFails|]. close_run. }
  unfold VectorStoreIndex, ChromaVectorStore, StorageContext_from_defaults.
  destruct (index_nodes _ _ nodes _) as [r wi] eqn:Hindex.
  pose proof (index_nodes_effect _ _ _ _ _ _ Hindex) as Heff.
  destruct Heff as ((ilines & Hcon & ihs & Hh & Hren & Hown & Hlev)
                    & _ & _ & (evs & Htr & Hevs) & Hgrow).
  autorewrite with world in Hcon, Hh, Htr, Hgrow.
  assert (grows_by (fun r => exists n, n ∈ nodes /\ embeds (embed_model g) n r)
            (disk w) (disk wi)) as Hgrow'.
  { eapply grows_by_trans; [apply grows_by_open_store|].
    eapply grows_by_trans; [apply grows_by_get_or_create|]. exact Hgrow. }
  destruct r as [e|[]].
  { do 4 eexists. split; [by eapply RunIndexFails|].
    cbn [fst snd outcome_of]. autorewrite with world. rewrite Htr, Hcon.
    split; [rewrite <- ?app_assoc; reflexivity|].
    split; [rewrite <- ?app_assoc; reflexivity|].
    split; [|reflexivity].
    eexists. autorewrite with world. rewrite Hh.
    split; [rewrite <- ?app_assoc; reflexivity|].
    split; [all_rendered|]. split; [own_pieces | level_pieces]. }
  apply index_nodes_done in Hindex as (_ & recs & Hrecs & Hall);
    [|autorewrite with world; apply collection_exists_get_or_create].
  autorewrite with world in Hrecs. cbn [fst snd] in Hrecs.
  rewrite records_at_get_or_create, records_at_open_store in Hrecs.
  do 4 eexists. split; [by eapply RunCompletes|].
  cbn [fst snd outcome_of]. autorewrite with world. rewrite Htr, Hcon.
  split; [rewrite <- ?app_assoc; reflexivity|].
  split; [rewrite <- ?app_assoc; reflexivity|].
  split; [|reflexivity].
  eexists. autorewrite with world. rewrite Hh.
  split; [rewrite <- ?app_assoc; reflexivity|].
  split; [all_rendered|]. split; [own_pieces | level_pieces].
Qed.

End DriverFacts.

(** ** Shapes of executions *)

Section RunFacts.

Context `{Collaborators}.

Lemma trace_since_app w w' evs :
  trace w' = trace w ++ evs -> trace_since w w' = evs.
Proof. unfold trace_since. intros ->. apply drop_app_length. Qed.

Lemma console_since_app w w' lines :
  console w' = console w ++ lines -> console_since w w' = lines.
Proof. unfold console_since. intros ->. apply drop_app_length. Qed.

Lemma handled_since_app w w' hs :
  handled w' = handled w ++ hs -> handled_since w w' = hs.
Proof. unfold handled_since. intros ->. apply drop_app_length. Qed.

Lemma nonempty_snoc {A} (l : list A) : l <> [] -> exists b x, l = b ++ [x].
Proof. induction l using rev_ind; [done | by eauto]. Qed.

Lemma run_code g w code evs records d :
  Run g w code evs records d -> code = 0 \/ code = 1.
Proof. destruct 1; auto. Qed.

(** A failing run logs INFO records and then exactly one ERROR record. *)
Lemma run_failure_records g w evs records d :
  Run g w 1 evs records d ->
  exists infos e,
    records = infos ++ [msg_failure e] /\ Forall (fun r => r.1 = INFO) infos.
Proof.
  inversion 1; subst;
    match goal with
    | |- exists infos e', ?L = _ /\ _ =>
        match L with
        | context [msg_failure ?e] => exists (removelast L), e
        end
    end; split; try reflexivity; repeat constructor.
Qed.

(** A run that returns 0 logs INFO records only. *)
Lemma run_success_records g w evs records d :
  Run g w 0 evs records d -> Forall (fun r => r.1 = INFO) records.
Proof. inversion 1; subst. repeat constructor. Qed.

Lemma filter_driver_call_index evs :
  Forall index_event evs -> List.filter driver_call evs = [].
Proof.
  induction 1 as [|[a o] evs Ha _ IH]; [reflexivity|].
  simpl. rewrite IH. by destruct a.
Qed.

(** No call of the driver is made twice. *)
Lemma run_no_retry g w code evs records d :
  Run g w code evs records d ->
  NoDup (map (fun ev : Event => action_tag ev.1) (List.filter driver_call evs)).
Proof.
  destruct 1; unfold events_parsed;
    rewrite ?List.filter_app;
    try match goal with
        | Hev : Forall index_event ?l |- _ =>
            rewrite (filter_driver_call_index l Hev)
        end;
    cbn; apply (bool_decide_unpack _); vm_compute; exact I.
Qed.

(** Every chunking parameter seen by a library is 1024 / 50. *)
Lemma run_chunking g w code evs records d :
  Run g w code evs records d -> Forall chunking_1024_50 evs.
Proof.
  assert (forall l, Forall index_event l -> Forall chunking_1024_50 l) as Hidx.
  { intros l Hl. eapply Forall_impl; [exact Hl|]. by intros [[] o]. }
  destruct 1; unfold events_parsed; rewrite ?Forall_app; repeat split;
    try (by apply Hidx); by repeat constructor.
Qed.

End RunFacts.

Section OrderFacts.

Context `{Collaborators}.


Lemma no_match_in_split {A} (P : A -> Prop) l pre x post :
  Forall (fun y => ~ P y) l -> l = pre ++ x :: post -> P x -> False.
Proof.
  intros Hall -> Hx. apply Forall_app in Hall as [_ Hall].
  apply Forall_cons in Hall as [Hn _]. by apply Hn.
Qed.

(** A list with a single element satisfying [P] splits at it in one way. *)
Lemma split_at_unique {A} (P : A -> Prop) a x b pre y post :
  Forall (fun z => ~ P z) a -> Forall (fun z => ~ P z) b -> P y ->
  a ++ x :: b = pre ++ y :: post -> pre = a.
Proof.
  revert pre. induction a as [|z a IH]; intros pre Ha Hb Hy Heq.
  - destruct pre as [|z pre]; [reflexivity|]. simpl in Heq.
    injection Heq as _ Heq. exfalso.
    by eapply (no_match_in_split P b pre y post).
  - apply Forall_cons in Ha as [Hz Ha].
    destruct pre as [|z' pre]; simpl in Heq.
    + injection Heq as <- _. done.
    + injection Heq as <- Heq. f_equal. by apply IH.
Qed.

Lemma index_event_not_open l :
  Forall index_event l -> Forall (fun ev => ~ opens_store ev) l.
Proof.
  intros Hl. eapply Forall_impl; [exact Hl|].
  intros [[] o]; unfold index_event, opens_store; simpl; tauto.
Qed.

(** Before the store is opened, loading and parsing have returned. *)
Lemma run_open_after_parse g w code evs records d pre ev post :
  Run g w code evs records d ->
  evs = pre ++ ev :: post -> opens_store ev ->
  (ActLoadData, Returned) ∈ pre
  /\ exists n, (ActGetNodes 1024 50 n, Returned) ∈ pre.
Proof.
  intros Hrun Heq Hev.
  assert (forall n,
            Forall (fun ev => ~ opens_store ev) (events_parsed g n)) as Hparsed.
  { intros n. unfold events_parsed. repeat constructor; intros Hx; exact Hx. }
  assert (forall n, pre = events_parsed g n ->
            (ActLoadData, Returned) ∈ pre
            /\ exists k, (ActGetNodes 1024 50 k, Returned) ∈ pre) as Hdone.
  { intros n ->. unfold events_parsed. split; [in_list|].
    exists n. in_list. }
  assert (forall l, Forall (fun ev => ~ opens_store ev) l ->
            l = pre ++ ev :: post -> False) as Hnone.
  { intros l Hl Hsplit. by eapply (no_match_in_split opens_store). }
  assert (forall n x b, Forall (fun ev => ~ opens_store ev) b ->
            events_parsed g n ++ x :: b = pre ++ ev :: post ->
            pre = events_parsed g n) as Hsplit.
  { intros n x b Hb Hs.
    by eapply (split_at_unique opens_store (events_parsed g n) x b). }
  destruct Hrun.
  - exfalso. eapply Hnone; [|exact Heq]. repeat constructor; intros Hx; exact Hx.
  - exfalso. eapply Hnone; [|exact Heq]. repeat constructor; intros Hx; exact Hx.
  - exfalso. eapply Hnone; [|exact Heq]. repeat constructor; intros Hx; exact Hx.
  - apply (Hdone (length docs)). eapply Hsplit; [|exact Heq]. constructor.
  - apply (Hdone (length docs)). eapply Hsplit; [|exact Heq].
    repeat constructor; intros Hx; exact Hx.
  - apply (Hdone (length docs)). eapply Hsplit; [|exact Heq].
    constructor; [intros Hx; exact Hx|]. apply Forall_app. split.
    + by apply index_event_not_open.
    + repeat constructor; intros Hx; exact Hx.
  - apply (Hdone (length docs)). eapply Hsplit; [|exact Heq].
    constructor; [intros Hx; exact Hx|]. apply Forall_app. split.
    + by apply index_event_not_open.
    + repeat constructor; intros Hx; exact Hx.
Qed.

End OrderFacts.

(** * The claims *)

Section Claims.

Context `{Collaborators}.

(** The driver always returns, with 0 or 1. *)
Lemma build_returns_0_or_1 g w :
  (build_vector_store_from_documents g w).1 = 0
  \/ (build_vector_store_from_documents g w).1 = 1.
Proof.
  destruct (build_run g w) as (evs & records & lines & d & Hrun & _).
  by eapply run_code.
Qed.

(** It returns 1 exactly when the [try] block raised. *)
Lemma build_returns_1_iff g w :
  (build_vector_store_from_documents g w).1 = 1
  <-> exists e w2, try_block g (entered w) = (inl e, w2).
Proof.
  unfold build_vector_store_from_documents. fold (entered w).
  destruct (try_block g (entered w)) as [[e|code] w2] eqn:Hbody; simpl.
  - split; [eauto | done].
  - split; [|by intros (? & ? & ?)].
    intros ->. exfalso. revert Hbody.
    unfold try_block, bindM, call, logger_info, retM, PersistentClient,
      get_or_create_collection, VectorStoreIndex.
    repeat match goal with
           | |- context [match ?x with _ => _ end] => destruct x; try done
           end.
Qed.

(** When the [try] block raises, the ERROR record of the handler is the
    last thing on the console, and the script's own records before it are
    INFO records. *)
Lemma failure_is_last g w e w2 :
  try_block g (entered w) = (inl e, w2) ->
  let out := build_vector_store_from_documents g w in
  exists before entry infos,
    console_since w out.2 = before ++ [entry]
    /\ log_entry Stderr ERROR
         ("Error during vector store build: " +:+ str_of_exn e) entry
    /\ own (handled_since w out.2)
       = infos ++ [(ERROR, "Error during vector store build: " +:+ str_of_exn e)]
    /\ Forall (fun r : Level * string => r.1 = INFO) infos.
Proof.
  intros Hbody out.
  assert (out = (1, logger_log ERROR
                      ("Error during vector store build: " +:+ str_of_exn e) w2))
    as Hout.
  { unfold out, build_vector_store_from_documents. fold (entered w).
    by rewrite Hbody. }
  destruct (build_run g w)
    as (evs & records & lines & d & Hrun & _ & Hcon
        & (hs & Hh & Hren & Hown & _) & _).
  fold out in Hrun, Hcon, Hh.
  assert (out.1 = 1) as Hcode by (by rewrite Hout).
  rewrite Hcode in Hrun.
  destruct (run_failure_records _ _ _ _ _ Hrun) as (infos & e' & -> & Hinfos).
  destruct (nonempty_snoc hs) as (hb & x & ->).
  { intros ->. by destruct infos. }
  apply Forall2_app_inv_l in Hren as (before & l2 & Hbefore & Hlast & ->).
  inversion Hlast as [|? entry ? tl Hentry Htl]; subst. inversion Htl; subst.
  assert (x = (FromScript,
               (ERROR, "Error during vector store build: " +:+ str_of_exn e)))
    as ->.
  { rewrite Hout in Hh. cbn [snd] in Hh. autorewrite with world in Hh.
    rewrite app_assoc in Hh. by apply app_inj_tail in Hh as [_ <-]. }
  rewrite own_app in Hown. apply app_inj_tail in Hown as [Hown _].
  exists before, entry, infos.
  rewrite (console_since_app _ _ _ Hcon), (handled_since_app _ _ _ Hh), own_app.
  split; [done|]. split; [exact Hentry|]. split; [by rewrite Hown | done].
Qed.

(** C3: whatever exception the [try] block raises, be it from loading,
    parsing, the store or the embedding model, the driver returns 1 (the
    same value for every exception), the last entry on the console is the
    ERROR record carrying the exception's message, the records the script
    itself logged before it are at INFO level, and no call of the driver
    has been made twice. *)
Theorem C3_exception_caught_logged_returns_1 g w e w2 :
  try_block g (entered w) = (inl e, w2) ->
  let out := build_vector_store_from_documents g w in
  out.1 = 1
  /\ (exists before entry,
        console_since w out.2 = before ++ [entry]
        /\ log_entry Stderr ERROR
             ("Error during vector store build: " +:+ str_of_exn e) entry)
  /\ (exists infos,
        own (handled_since w out.2)
        = infos
          ++ [(ERROR, "Error during vector store build: " +:+ str_of_exn e)]
        /\ Forall (fun r : Level * string => r.1 = INFO) infos)
  /\ NoDup (map (fun ev : Event => action_tag ev.1)
              (List.filter driver_call (trace_since w out.2))).
Proof.
  intros Hbody out.
  destruct (failure_is_last g w e w2 Hbody)
    as (before & entry & infos & Hcon & Hentry & Hown & Hinfos).
  fold out in Hcon, Hown.
  split; [|split; [by exists before, entry|split; [by exists infos|]]].
  - unfold out, build_vector_store_from_documents. fold (entered w).
    by rewrite Hbody.
  - destruct (build_run g w) as (evs & records & lines & d & Hrun & Htr & _).
    fold out in Htr. rewrite (trace_since_app _ _ _ Htr).
    by eapply run_no_retry.
Qed.

(** C4: when the documents directory does not exist (and the reader
    refuses such a directory), the driver returns 1, an ERROR record is
    among the entries it logs, the vector store is exactly as before, and
    no store client was opened. *)
Theorem C4_missing_directory_leaves_store g w :
  reader_rejects_missing ->
  fs w !! DOCUMENTS_DIR (settings g) = None ->
  let out := build_vector_store_from_documents g w in
  out.1 = 1
  /\ (exists entry msg,
        entry ∈ console_since w out.2 /\ log_entry Stderr ERROR msg entry)
  /\ disk out.2 = disk w
  /\ Forall (fun ev => ~ opens_store ev) (trace_since w out.2).
Proof.
  intros Hreader Hdir out.
  destruct (Hreader _ _ Hdir) as (e & He).
  destruct (build_run g w) as (evs & records & lines & d & Hrun & Htr & _ & _ & Hd).
  fold out in Hrun, Htr, Hd.
  rewrite (trace_since_app _ _ _ Htr), Hd.
  inversion Hrun as [e0 He0 Hcode| | | | | |]; subst; try congruence.
  split; [done|]. split; [|split; [done|]].
  - symmetry in Hcode. apply build_returns_1_iff in Hcode as (e' & w2 & Hbody).
    destruct (failure_is_last g w e' w2 Hbody)
      as (before & entry & infos & Hcon & Hentry & _).
    fold out in Hcon. exists entry. eexists. split; [|exact Hentry].
    rewrite Hcon. apply elem_of_app. right. by left.
  - repeat constructor; intros Hx; exact Hx.
Qed.

(** C5: whatever the settings, the environment and the libraries, the
    parser is built and used with chunk size 1024 and overlap 50 and with
    nothing else; and once the documents are loaded the parser is indeed
    called with these two values. *)
Theorem C5_chunking_constants_fixed g w :
  let out := build_vector_store_from_documents g w in
  Forall chunking_1024_50 (trace_since w out.2)
  /\ forall files docs,
       SimpleDirectoryReader (fs w) (DOCUMENTS_DIR (settings g)) = inr files ->
       load_data files = inr docs ->
       (ActParserNew 1024 50, Returned) ∈ trace_since w out.2
       /\ (ActGetNodes 1024 50 (length docs),
           outcome_of (get_nodes_from_documents
                         {| chunk_size := 1024; chunk_overlap := 50 |} docs))
          ∈ trace_since w out.2.
Proof.
  intros out.
  destruct (build_run g w) as (evs & records & lines & d & Hrun & Htr & _).
  fold out in Hrun, Htr. rewrite (trace_since_app _ _ _ Htr).
  split; [by eapply run_chunking|].
  intros files docs Hfiles Hdocs.
  destruct Hrun; try congruence;
    match goal with
    | Hf : SimpleDirectoryReader _ _ = inr ?f, Hl : load_data ?f = inr ?l |- _ =>
        assert (f = files) as -> by congruence;
        assert (l = docs) as -> by congruence
    end;
    match goal with
    | Hp : get_nodes_from_documents _ _ = _ |- _ => rewrite Hp
    end;
    unfold events_parsed; split; in_list.
Qed.

(** C10: in every run the store client is opened only after loading and
    parsing have both returned; and when the documents do not make it
    through loading and parsing, the vector store is exactly as before and
    no store client was opened. *)
Theorem C10_store_opened_only_after_parsing g w :
  let out := build_vector_store_from_documents g w in
  (forall pre ev post,
     trace_since w out.2 = pre ++ ev :: post -> opens_store ev ->
     (ActLoadData, Returned) ∈ pre
     /\ exists n, (ActGetNodes 1024 50 n, Returned) ∈ pre)
  /\ ((~ exists nodes, loads_and_parses g w nodes) ->
      disk out.2 = disk w
      /\ Forall (fun ev => ~ opens_store ev) (trace_since w out.2)).
Proof.
  intros out.
  destruct (build_run g w) as (evs & records & lines & d & Hrun & Htr & _ & _ & Hd).
  fold out in Hrun, Htr, Hd. rewrite (trace_since_app _ _ _ Htr), Hd.
  split.
  - intros pre ev post Heq Hev. by eapply run_open_after_parse.
  - intros Hnot.
    destruct Hrun;
      try (exfalso; apply Hnot; eexists; do 2 eexists; by eauto);
      (split; [reflexivity|]); repeat constructor; intros Hx; exact Hx.
Qed.

(** C2 (amended): when the documents directory exists but is empty (and
    the reader refuses a directory without files), the reader raises; the
    run consists of that one failed call, so no document is loaded, no
    node is produced and index construction is not reached; the vector
    store is exactly as before, the error is logged at ERROR level and the
    driver returns 1. *)
Theorem C2_empty_directory_returns_1 g w :
  reader_rejects_empty ->
  fs w !! DOCUMENTS_DIR (settings g) = Some [] ->
  let out := build_vector_store_from_documents g w in
  out.1 = 1
  /\ trace_since w out.2
     = [ (ActEnterBuild, Returned);
         (ActReader (DOCUMENTS_DIR (settings g)), Raised) ]
  /\ disk out.2 = disk w
  /\ exists e entry,
       SimpleDirectoryReader (fs w) (DOCUMENTS_DIR (settings g)) = inl e
       /\ last (console_since w out.2) = Some entry
       /\ log_entry Stderr ERROR
            ("Error during vector store build: " +:+ str_of_exn e) entry.
Proof.
  intros Hreader Hdir out.
  destruct (Hreader _ _ Hdir) as (e & He).
  destruct (build_run g w)
    as (evs & records & lines & d & Hrun & Htr & _ & Hlogs & Hd).
  fold out in Hrun, Htr, Hlogs, Hd.
  rewrite (trace_since_app _ _ _ Htr), Hd.
  inversion Hrun as [e0 He0 Hcode| | | | | |]; subst; try congruence.
  destruct Hlogs as (hs & Hh & _ & Hown & _).
  assert (e0 = e) as -> by congruence.
  split; [done|]. split; [done|]. split; [done|].
  symmetry in Hcode. apply build_returns_1_iff in Hcode as (e' & w2 & Hbody).
  destruct (failure_is_last g w e' w2 Hbody)
    as (before & entry & infos & Hcon & Hentry & Hown' & _).
  fold out in Hcon, Hown'.
  rewrite (handled_since_app _ _ _ Hh), Hown in Hown'.
  change [msg_start; msg_loading g; msg_failure e]
    with ([msg_start; msg_loading g] ++ [msg_failure e]) in Hown'.
  apply app_inj_tail in Hown' as [_ Hmsg].
  apply (f_equal snd) in Hmsg. cbn [snd msg_failure] in Hmsg.
  exists e, entry. split; [done|]. split.
  - rewrite Hcon. apply last_snoc.
  - rewrite Hmsg. exact Hentry.
Qed.

End Claims.

Section StoreClaims.

Context `{Collaborators}.

(** Whatever a run does to the store, it only appends records, each the
    embedding of some node by the model of the run. *)
Lemma run_grows g w code evs records d :
  Run g w code evs records d ->
  grows_by (fun r => exists n, embeds (embed_model g) n r) (disk w) d.
Proof.
  destruct 1; try apply grows_by_refl; try apply grows_by_open_store;
    (eapply grows_by_weaken; [|eassumption]);
    intros r (n & _ & Hn); by exists n.
Qed.

(** Asking twice for the same collection changes nothing more. *)
Lemma get_or_create_idempotent path name (d : Disk) :
  get_or_create path name (get_or_create path name d)
  = get_or_create path name d.
Proof.
  destruct (collection_exists_get_or_create path name d) as (db & rs & Hp & Hc).
  unfold get_or_create at 1. by rewrite Hp, Hc.
Qed.

(** C7: after a run that returned 0, a second run against the store that
    run left, with the same settings, gets its collection from the
    get-or-create step without an error, and leaves in that collection
    the records it found followed by its own (one per node, in order,
    when it returns 0); no collection of the store loses a record. *)
Theorem C7_second_run_appends g w0 w2 nodes :
  (build_vector_store_from_documents g w0).1 = 0 ->
  disk w2 = disk (build_vector_store_from_documents g w0).2 ->
  loads_and_parses g w2 nodes ->
  let p := VECTOR_STORE_DIR (settings g) in
  let c := COLLECTION_NAME (settings g) in
  let out := build_vector_store_from_documents g w2 in
  (ActGetOrCreate p c, Returned) ∈ trace_since w2 out.2
  /\ (exists new,
        records_at p c (disk out.2)
        = records_at p c (disk (build_vector_store_from_documents g w0).2) ++ new
        /\ (out.1 = 0 -> Forall2 (embeds (embed_model g)) nodes new))
  /\ grows_by (fun _ => True)
       (disk (build_vector_store_from_documents g w0).2) (disk out.2).
Proof.
  intros Hfirst Hdisk (files & docs & Hfiles & Hdocs & Hnodes) p c out.
  subst p c.
  destruct (build_run g w0) as (evs0 & records0 & lines0 & d0 & Hrun0 & _).
  rewrite Hfirst in Hrun0.
  assert (chroma_fault (OpOpen (VECTOR_STORE_DIR (settings g))) = None
          /\ chroma_fault (OpGetOrCreate (VECTOR_STORE_DIR (settings g))
                                         (COLLECTION_NAME (settings g))) = None)
    as [Hopen Hcoll].
  { by inversion Hrun0; subst. }
  clear Hrun0.
  destruct (build_run g w2) as (evs & records & lines & d & Hrun & Htr & _ & _ & Hd).
  fold out in Hrun, Htr, Hd.
  rewrite (trace_since_app _ _ _ Htr), Hd, <- Hdisk.
  pose proof (run_grows _ _ _ _ _ _ Hrun) as Hgrow.
  split; [|split].
  - destruct Hrun; try congruence; unfold events_parsed; in_list.
  - destruct Hrun; try congruence.
    + destruct (Hgrow (VECTOR_STORE_DIR (settings g))
                      (COLLECTION_NAME (settings g))) as (new & Hnew & _).
      exists new.
      split; [exact Hnew | discriminate].
    + exists recs. split; [assumption|]. intros _.
      assert (files0 = files) as -> by congruence.
      assert (docs0 = docs) as -> by congruence.
      assert (nodes0 = nodes) as -> by congruence. assumption.
  - eapply grows_by_weaken; [|exact Hgrow]. done.
Qed.

(** C8: every record a run adds to any collection holds a vector whose
    length is the dimension declared by the embedding model of the run,
    provided the model returns vectors of its declared dimension. *)
Theorem C8_vector_length_is_model_dimension g w :
  embedder_dimension (embed_model g) ->
  grows_by (fun r => length (rec_embedding r) = embed_dim (embed_model g))
    (disk w) (disk (build_vector_store_from_documents g w).2).
Proof.
  intros Hdim.
  destruct (build_run g w) as (evs & records & lines & d & Hrun & _ & _ & _ & ->).
  eapply grows_by_weaken; [|by eapply run_grows].
  intros r (n & Hvec & _). by eapply Hdim.
Qed.

End StoreClaims.

Section ProcessClaims.

Context `{Collaborators}.

(** The exit status of the process depends on the module-level statements
    only: 0 when they complete, 1 when one of them raises. *)
Lemma run_script_exit_status w :
  (run_script w).1 = match (module_init w).1 with inr _ => 0 | inl _ => 1 end.
Proof.
  unfold run_script. destruct (module_init w) as [[e|g] w1]; [reflexivity|].
  by destruct (build_vector_store_from_documents g w1).
Qed.




End ProcessClaims.


(** * Concrete runs *)

Section Concrete.

Import Reference.

#[local] Existing Instance Reference.collaborators.

Lemma reference_rejects_missing : reader_rejects_missing.
Proof.
  intros files dir Hdir. simpl. unfold simple_directory_reader.
  rewrite Hdir. by eexists.
Qed.

Lemma reference_rejects_empty : reader_rejects_empty.
Proof.
  intros files dir Hdir. simpl. unfold simple_directory_reader.
  rewrite Hdir. by eexists.
Qed.

Lemma reference_model_dimension : embedder_dimension model.
Proof. intros text v [= <-]. reflexivity. Qed.

(** C1: run as a script over a documents directory that does not exist,
    the module-level statements complete, the driver returns 1, and the
    process still exits with status 0: the value returned on line 79 is
    dropped. *)
Theorem C1_exit_status_is_0_after_failure :
  exists w1,
    module_init world_missing = (inr globals, w1)
    /\ (build_vector_store_from_documents globals w1).1 = 1
    /\ (run_script world_missing).1 = 0.
Proof.
  eexists. split; [vm_compute; reflexivity|]. split; vm_compute; reflexivity.
Qed.

(** An error of the store during index construction is caught like any
    other; the store directory and the empty collection made on the way
    stay behind. *)
Example store_error_is_caught :
  (build_vector_store_from_documents (H := read_only_store) globals world_one).1
  = 1
  /\ disk (build_vector_store_from_documents (H := read_only_store)
             globals world_one).2 !! "store"
     = Some {[ "papers" := [] ]}
  /\ last (console_since world_one
             (build_vector_store_from_documents (H := read_only_store)
                globals world_one).2)
     = Some (Stderr,
             log_line "T7" ERROR
               "Error during vector store build: database is read-only").
Proof. repeat split; vm_compute; reflexivity. Qed.

(** With libraries that log on their own, the console of a run holds
    their records between those of the script (the debug record is
    dropped), and the script's own records are the eight of the source. *)
Example library_records_interleave :
  length (console_since world_one
            (build_vector_store_from_documents (H := talkative)
               globals world_one).2) = 9%nat
  /\ own (handled_since world_one
            (build_vector_store_from_documents (H := talkative)
               globals world_one).2)
     = success_records globals 1.
Proof. split; vm_compute; reflexivity. Qed.

(** C2, as stated, fails: over an empty documents directory the driver
    returns 1, not 0. *)
Lemma C2_empty_directory_counterexample :
  fs world_empty !! "docs" = Some []
  /\ (build_vector_store_from_documents globals world_empty).1 = 1
  /\ (build_vector_store_from_documents globals world_empty).1 <> 0.
Proof. repeat split; vm_compute; congruence. Qed.

(** The amended C2 at [world_empty]. *)
Lemma C2_witness :
  fs world_empty !! "docs" = Some []
  /\ (build_vector_store_from_documents globals world_empty).1 = 1
  /\ disk (build_vector_store_from_documents globals world_empty).2
     = disk world_empty.
Proof.
  assert (fs world_empty !! DOCUMENTS_DIR (settings globals) = Some [])
    as Hdir by (vm_compute; reflexivity).
  split; [exact Hdir|].
  pose proof (C2_empty_directory_returns_1 globals world_empty
                reference_rejects_empty Hdir) as (Hcode & _ & Hdisk & _).
  by split.
Defined.

(** C3 at [world_missing]: the reader raises and the driver returns 1. *)
Lemma C3_witness :
  try_block globals (entered world_missing)
  = (inl (PyException "ValueError" "Directory docs does not exist."),
     (try_block globals (entered world_missing)).2)
  /\ (build_vector_store_from_documents globals world_missing).1 = 1.
Proof.
  assert (try_block globals (entered world_missing)
          = (inl (PyException "ValueError" "Directory docs does not exist."),
             (try_block globals (entered world_missing)).2)) as Hbody
    by (vm_compute; reflexivity).
  split; [exact Hbody|].
  exact (proj1 (C3_exception_caught_logged_returns_1 globals world_missing
                  _ _ Hbody)).
Defined.

(** C4 at [world_missing]. *)
Lemma C4_witness :
  fs world_missing !! "docs" = None
  /\ (build_vector_store_from_documents globals world_missing).1 = 1
  /\ disk (build_vector_store_from_documents globals world_missing).2
     = disk world_missing.
Proof.
  assert (fs world_missing !! DOCUMENTS_DIR (settings globals) = None)
    as Hdir by (vm_compute; reflexivity).
  split; [exact Hdir|].
  pose proof (C4_missing_directory_leaves_store globals world_missing
                reference_rejects_missing Hdir) as (Hcode & _ & Hdisk & _).
  by split.
Defined.

(** C5 at [world_one]: the parser is called with 1024 and 50. *)
Lemma C5_witness :
  SimpleDirectoryReader (fs world_one) "docs" = inr [the_file]
  /\ load_data [the_file] = inr [the_document]
  /\ (ActGetNodes 1024 50 (length [the_document]),
      outcome_of (get_nodes_from_documents
                    {| chunk_size := 1024; chunk_overlap := 50 |}
                    [the_document]))
     ∈ trace_since world_one
         (build_vector_store_from_documents globals world_one).2.
Proof.
  assert (SimpleDirectoryReader (fs world_one) (DOCUMENTS_DIR (settings globals))
          = inr [the_file]) as Hfiles by (vm_compute; reflexivity).
  assert (load_data [the_file] = inr [the_document]) as Hdocs
    by (vm_compute; reflexivity).
  split; [exact Hfiles|]. split; [exact Hdocs|].
  exact (proj2 (proj2 (C5_chunking_constants_fixed globals world_one) _ _
                  Hfiles Hdocs)).
Defined.



(** C7 for a second run right after a first one over [world_one]. *)
Lemma C7_witness :
  (build_vector_store_from_documents globals world_one).1 = 0
  /\ loads_and_parses globals world_rerun [the_node]
  /\ (ActGetOrCreate "store" "papers", Returned)
     ∈ trace_since world_rerun
         (build_vector_store_from_documents globals world_rerun).2.
Proof.
  assert ((build_vector_store_from_documents globals world_one).1 = 0)
    as Hfirst by (vm_compute; reflexivity).
  assert (loads_and_parses globals world_rerun [the_node]) as Hparse.
  { exists [the_file], [the_document].
    split; [|split]; vm_compute; reflexivity. }
  split; [exact Hfirst|]. split; [exact Hparse|].
  assert (disk world_rerun
          = disk (build_vector_store_from_documents globals world_one).2)
    as Hdisk by (unfold world_rerun; reflexivity).
  exact (proj1 (C7_second_run_appends globals world_one world_rerun [the_node]
                  Hfirst Hdisk Hparse)).
Defined.

(** C8 at [world_one] with the reference model of dimension 384. *)
Lemma C8_witness :
  embedder_dimension model
  /\ grows_by (fun r => length (rec_embedding r) = 384%nat)
       (disk world_one)
       (disk (build_vector_store_from_documents globals world_one).2).
Proof.
  split; [exact reference_model_dimension|].
  exact (C8_vector_length_is_model_dimension globals world_one
           reference_model_dimension).
Defined.


(** C10 at [world_missing]: loading fails, the store is untouched. *)
Lemma C10_witness :
  (~ exists nodes, loads_and_parses globals world_missing nodes)
  /\ disk (build_vector_store_from_documents globals world_missing).2
     = disk world_missing.
Proof.
  assert (~ exists nodes, loads_and_parses globals world_missing nodes) as Hnot.
  { intros (nodes & files & docs & Hfiles & _). vm_compute in Hfiles.
    discriminate Hfiles. }
  split; [exact Hnot|].
  exact (proj1 (proj2 (C10_store_opened_only_after_parsing globals world_missing)
                  Hnot)).
Defined.

End Concrete.

(** * Further properties of the script *)

(** ** More on the store and on index construction *)

Section IndexOrder.

Context `{Collaborators}.

Lemma open_store_lookup_other q p (d : Disk) :
  q <> p -> open_store p d !! q = d !! q.
Proof.
  intros Hne. unfold open_store. destruct (d !! p); [reflexivity|].
  by rewrite lookup_insert_ne.
Qed.

Lemma open_store_is_Some p (d : Disk) : is_Some (open_store p d !! p).
Proof.
  unfold open_store. destruct (d !! p) eqn:Hp; [by rewrite Hp|].
  by rewrite lookup_insert_eq.
Qed.

Lemma get_or_create_lookup_other q p c (d : Disk) :
  q <> p -> get_or_create p c d !! q = d !! q.
Proof.
  intros Hne. unfold get_or_create. destruct (d !! p) as [db|].
  - destruct (db !! c); [reflexivity|]. by rewrite lookup_insert_ne.
  - by rewrite lookup_insert_ne.
Qed.

Lemma append_record_lookup_other q p c r (d : Disk) :
  q <> p -> append_record p c r d !! q = d !! q.
Proof.
  intros Hne. unfold append_record. destruct (d !! p) as [db|]; [|reflexivity].
  destruct (db !! c); [|reflexivity]. by rewrite lookup_insert_ne.
Qed.

Lemma records_at_append_other path name p c r (d : Disk) :
  (path, name) <> (p, c) ->
  records_at path name (append_record p c r d) = records_at path name d.
Proof.
  intros Hne. unfold append_record, records_at.
  destruct (d !! p) as [db|] eqn:Hp; [|reflexivity].
  destruct (db !! c) as [rs|] eqn:Hc; [|reflexivity].
  destruct (decide (p = path)) as [->|Hp'].
  - rewrite lookup_insert_eq, Hp.
    destruct (decide (c = name)) as [->|Hc']; [done|].
    by rewrite lookup_insert_ne.
  - by rewrite lookup_insert_ne.
Qed.

(** Index construction touches one collection of one store path, and the
    events it leaves name that collection; when it returns, every one of
    its calls returned. *)
Lemma index_nodes_frame m h nodes :
  forall w r w', index_nodes m h nodes w = (r, w') ->
    (forall q, q <> h.1 -> disk w' !! q = disk w !! q)
    /\ (forall path name, (path, name) <> h ->
          records_at path name (disk w') = records_at path name (disk w))
    /\ exists evs,
         trace w' = trace w ++ evs
         /\ Forall (fun ev : Event =>
                      (exists t, ev.1 = ActEmbed t) \/ ev.1 = ActAdd h.1 h.2) evs
         /\ (r = inr tt -> Forall (fun ev : Event => ev.2 = Returned) evs).
Proof.
  induction nodes as [|n rest IH]; intros w r w' Hrun.
  - inversion Hrun; subst. repeat split; try done.
    exists []. by rewrite app_nil_r.
  - simpl in Hrun. unfold bindM, call, collection_add in Hrun.
    destruct (get_text_embedding m (node_text n)) as [e|v] eqn:Hv.
    { inversion Hrun; subst. autorewrite with world. repeat split; try done.
      eexists. split; [reflexivity|]. split; [|done].
      constructor; [left; by eexists | constructor]. }
    simpl in Hrun.
    destruct (chroma_fault (OpAdd h.1 h.2 (record_of_node n v))) as [e|] eqn:Hf.
    { inversion Hrun; subst. autorewrite with world. repeat split; try done.
      eexists. rewrite <- app_assoc. split; [reflexivity|]. split; [|done].
      constructor; [left; by eexists|]. constructor; [by right | constructor]. }
    apply IH in Hrun. autorewrite with world in Hrun.
    destruct Hrun as (Hq & Hother & evs & Htr & Hev & Hret).
    split; [|split].
    + intros q Hne. rewrite (Hq q Hne). by apply append_record_lookup_other.
    + intros path name Hne. rewrite (Hother path name Hne).
      apply records_at_append_other. by destruct h.
    + eexists. rewrite Htr, <- !app_assoc. split; [reflexivity|]. split.
      * simpl. constructor; [left; by eexists|]. constructor; [by right|done].
      * intros Hr. simpl. constructor; [done|]. constructor; [done|]. by apply Hret.
Qed.

(** Whatever its outcome, index construction leaves in the collection the
    records of the first nodes, in order: all of them when it returns. *)
Lemma index_nodes_prefix m h nodes :
  forall w r w', index_nodes m h nodes w = (r, w') ->
    collection_exists h.1 h.2 (disk w) ->
    collection_exists h.1 h.2 (disk w')
    /\ exists recs,
         records_at h.1 h.2 (disk w') = records_at h.1 h.2 (disk w) ++ recs
         /\ Forall2 (embeds m) (take (length recs) nodes) recs
         /\ (length recs <= length nodes)%nat
         /\ (r = inr tt -> length recs = length nodes).
Proof.
  induction nodes as [|n rest IH]; intros w r w' Hrun Hex.
  - inversion Hrun; subst. split; [done|]. exists [].
    rewrite app_nil_r. repeat split; first [done | constructor].
  - simpl in Hrun. unfold bindM, call, collection_add in Hrun.
    destruct (get_text_embedding m (node_text n)) as [e|v] eqn:Hv.
    { inversion Hrun; subst. autorewrite with world. split; [done|].
      exists []. rewrite app_nil_r.
      repeat split; first [done | simpl; lia | constructor]. }
    simpl in Hrun.
    destruct (chroma_fault (OpAdd h.1 h.2 (record_of_node n v))) as [e|] eqn:Hf.
    { inversion Hrun; subst. autorewrite with world. split; [done|].
      exists []. rewrite app_nil_r.
      repeat split; first [done | simpl; lia | constructor]. }
    apply IH in Hrun; autorewrite with world in *.
    + destruct Hrun as (Hex' & recs & Hrecs & Hall & Hlen & Hret).
      split; [done|]. exists (record_of_node n v :: recs).
      rewrite Hrecs, records_at_append_same, <- app_assoc by done.
      split; [done|]. split; [|split].
      * simpl. constructor; [by repeat split | done].
      * simpl. lia.
      * intros Hr. simpl. by rewrite Hret.
    + by apply collection_exists_append.
Qed.

End IndexOrder.

Section IndexStage.

Context `{Collaborators}.

(** A run whose documents load and parse and whose store hands out the
    collection reaches index construction; what the driver returns and the
    store it leaves are those of index construction. *)
Lemma build_index_stage g w nodes :
  loads_and_parses g w nodes ->
  chroma_fault (OpOpen (VECTOR_STORE_DIR (settings g))) = None ->
  chroma_fault (OpGetOrCreate (VECTOR_STORE_DIR (settings g))
                              (COLLECTION_NAME (settings g))) = None ->
  exists (docs : list Document) w6 r wi,
    trace w6
    = trace w ++ events_parsed g (length docs)
      ++ [ (ActOpenClient (VECTOR_STORE_DIR (settings g)), Returned);
           (ActGetOrCreate (VECTOR_STORE_DIR (settings g))
                           (COLLECTION_NAME (settings g)), Returned) ]
    /\ disk w6
       = get_or_create (VECTOR_STORE_DIR (settings g))
           (COLLECTION_NAME (settings g))
           (open_store (VECTOR_STORE_DIR (settings g)) (disk w))
    /\ index_nodes (embed_model g)
         (VECTOR_STORE_DIR (settings g), COLLECTION_NAME (settings g)) nodes w6
       = (r, wi)
    /\ trace (build_vector_store_from_documents g w).2
       = trace wi ++ [ (ActIndex (length nodes), outcome_of r) ]
    /\ disk (build_vector_store_from_documents g w).2 = disk wi
    /\ (build_vector_store_from_documents g w).1
       = match r with inl _ => 1 | inr _ => 0 end.
Proof.
  intros (files & docs & Hfiles & Hdocs & Hnodes) Hopen Hcoll.
  unfold build_vector_store_from_documents, try_block, bindM, call,
    logger_info, retM.
  rewrite !fs_logger_log, !fs_record, Hfiles, Hdocs.
  cbn [SimpleNodeParser_from_defaults Z.ltb Z.compare Pos.compare
       Pos.compare_cont chunk_size chunk_overlap].
  rewrite Hnodes. unfold PersistentClient. rewrite Hopen.
  unfold get_or_create_collection. rewrite Hcoll.
  unfold VectorStoreIndex, ChromaVectorStore, StorageContext_from_defaults.
  match goal with
  | |- context [index_nodes ?m ?h nodes ?w6] =>
      exists docs, w6; destruct (index_nodes m h nodes w6) as [r wi] eqn:Hindex
  end.
  exists r, wi. split; [|split; [|split; [reflexivity|]]].
  - cbn [outcome_of]. autorewrite with world. unfold events_parsed.
    rewrite <- ?app_assoc. reflexivity.
  - autorewrite with world. reflexivity.
  - destruct r as [e|[]]; cbn [fst snd outcome_of]; autorewrite with world;
      repeat split; reflexivity.
Qed.

End IndexStage.

(** ** Further facts on executions *)

Section MoreRunFacts.

Context `{Collaborators}.

(** A failing run has a call that raised. *)
Lemma run_failure_has_raised g w evs records d :
  Run g w 1 evs records d -> exists a, (a, Raised) ∈ evs.
Proof. inversion 1; subst; eexists; unfold events_parsed; in_list. Qed.

(** Either the run ended before index construction, and then its events
    and its store are known, or its documents loaded and parsed and the
    store handed out the collection. *)
Lemma run_early_or_index g w code evs records d :
  Run g w code evs records d ->
  (Forall (names_configured g) evs
   /\ (d = disk w \/ d = open_store (VECTOR_STORE_DIR (settings g)) (disk w)))
  \/ (exists nodes,
        loads_and_parses g w nodes
        /\ chroma_fault (OpOpen (VECTOR_STORE_DIR (settings g))) = None
        /\ chroma_fault (OpGetOrCreate (VECTOR_STORE_DIR (settings g))
                                       (COLLECTION_NAME (settings g))) = None).
Proof.
  destruct 1;
    try (right; exists nodes; split; [by do 2 eexists|by split]);
    left; unfold events_parsed; (split; [|by auto]);
    rewrite ?Forall_app; repeat split; repeat constructor.
Qed.

(** Records that embed the same nodes carry the same texts and vectors. *)
Lemma embeds_same_nodes m nodes r1 :
  Forall2 (embeds m) nodes r1 ->
  forall r2, Forall2 (embeds m) nodes r2 ->
    map rec_text r1 = map rec_text r2
    /\ map rec_embedding r1 = map rec_embedding r2.
Proof.
  induction 1 as [|n x nodes r1 (Hv1 & _ & Ht1 & _) _ IH]; intros r2 H2.
  - by inversion H2.
  - inversion H2 as [|? y ? r2' (Hv2 & _ & Ht2 & _) H2']; subst.
    destruct (IH _ H2') as [Ht Hv]. simpl. rewrite Ht, Hv.
    split; f_equal; congruence.
Qed.

(** When index construction raises, fewer records than nodes were added. *)
Lemma index_nodes_raised_short m h nodes :
  forall w e w', index_nodes m h nodes w = (inl e, w') ->
    collection_exists h.1 h.2 (disk w) ->
    exists recs,
      records_at h.1 h.2 (disk w') = records_at h.1 h.2 (disk w) ++ recs
      /\ (length recs < length nodes)%nat.
Proof.
  induction nodes as [|n rest IH]; intros w e w' Hrun Hex; [done|].
  simpl in Hrun. unfold bindM, call, collection_add in Hrun.
  destruct (get_text_embedding m (node_text n)) as [e'|v] eqn:Hv.
  { inversion Hrun; subst. autorewrite with world. exists [].
    rewrite app_nil_r. split; [done | simpl; lia]. }
  simpl in Hrun.
  destruct (chroma_fault (OpAdd h.1 h.2 (record_of_node n v))) as [e'|] eqn:Hf.
  { inversion Hrun; subst. autorewrite with world. exists [].
    rewrite app_nil_r. split; [done | simpl; lia]. }
  apply IH in Hrun; autorewrite with world in *.
  - destruct Hrun as (recs & Hrecs & Hlen).
    exists (record_of_node n v :: recs).
    rewrite Hrecs, records_at_append_same, <- app_assoc by done.
    split; [done | simpl; lia].
  - by apply collection_exists_append.
Qed.

End MoreRunFacts.

(** ** The process *)

Section ProcessExtras.

Context `{Collaborators}.

(** X1: the exit status of the script is 0 or 1, and it is 0 exactly when
    the settings object and the embedding model are both constructed;
    what ingestion does afterwards has no part in it. *)
Theorem exit_status_reflects_import_only w :
  ((run_script w).1 = 0 \/ (run_script w).1 = 1)
  /\ ((run_script w).1 = 0
      <-> exists s m, DocIngestionSettings (environ w) = inr s
                      /\ HuggingFaceEmbedding tt = inr m).
Proof.
  unfold run_script, module_init, bindM, call, logger_info, retM.
  destruct (DocIngestionSettings (environ w)) as [e|s].
  { cbn [fst]. split; [by right|].
    split; [done | by intros (? & ? & ? & ?)]. }
  destruct (HuggingFaceEmbedding tt) as [e|m].
  { cbn [fst]. split; [by right|].
    split; [done | by intros (? & ? & ? & ?)]. }
  destruct (build_vector_store_from_documents _ _) as [code w2].
  cbn [fst]. split; [by left|]. split; [by eauto | done].
Qed.

(** X2: when a module-level statement raises (the settings object or the
    embedding model cannot be constructed), the process exits with status
    1 after printing the traceback to standard error; the driver is never
    entered, no document is read and the vector store is untouched. *)
Theorem import_failure_aborts_before_driver w e w1 :
  module_init w = (inl e, w1) ->
  (run_script w).1 = 1
  /\ disk (run_script w).2 = disk w
  /\ Forall (fun ev : Event => ev.1 = ActSettings \/ ev.1 = ActLoadModel)
       (trace_since w (run_script w).2)
  /\ last (console_since w (run_script w).2) = Some (Stderr, traceback e)
  /\ (DocIngestionSettings (environ w) = inl e
      \/ HuggingFaceEmbedding tt = inl e).
Proof.
  unfold run_script. intros Hinit. rewrite Hinit. cbn [fst snd].
  revert Hinit. unfold module_init, bindM, call, logger_info, retM.
  destruct (DocIngestionSettings (environ w)) as [e'|s] eqn:Hs.
  { intros [= <- <-]. autorewrite with world. split; [done|]. split; [done|].
    split; [|split; [|by left]].
    - erewrite trace_since_app; [|autorewrite with world; reflexivity].
      constructor; [by left | constructor].
    - erewrite console_since_app;
        [|autorewrite with world; rewrite <- ?app_assoc; reflexivity].
      rewrite ?app_assoc. apply last_snoc. }
  destruct (HuggingFaceEmbedding tt) as [e'|m] eqn:Hm; [|done].
  intros [= <- <-]. autorewrite with world. split; [done|]. split; [done|].
  split; [|split; [|by right]].
  - erewrite trace_since_app;
      [|autorewrite with world; rewrite <- ?app_assoc; reflexivity].
    constructor; [by left|]. constructor; [by right | constructor].
  - erewrite console_since_app;
      [|autorewrite with world; rewrite <- ?app_assoc; reflexivity].
    rewrite ?app_assoc. apply last_snoc.
Qed.

End ProcessExtras.

(** ** The driver *)

Section DriverExtras.

Context `{Collaborators}.

(** X3: the records the script itself logs in a run that returns 0 are
    exactly the eight INFO records of the source, in order, with the
    number of parsed nodes in the fourth; in a run that returns 1 they are
    an initial part of that sequence (at most seven records) followed by
    the ERROR record.  They are on the console in that order, among
    whatever the libraries log through the same handler. *)
Theorem run_log_is_prefix_of_success_log g w :
  let out := build_vector_store_from_documents g w in
  Forall2 rendered (handled_since w out.2) (console_since w out.2)
  /\ (out.1 = 0 ->
      exists nodes, loads_and_parses g w nodes
                    /\ own (handled_since w out.2)
                       = success_records g (length nodes))
  /\ (out.1 = 1 ->
      exists n infos e,
        own (handled_since w out.2) = infos ++ [msg_failure e]
        /\ infos `prefix_of` success_records g n
        /\ (length infos <= 7)%nat).
Proof.
  intros out.
  destruct (build_run g w)
    as (evs & records & lines & d & Hrun & _ & Hcon & Hlogs & _).
  fold out in Hrun, Hcon, Hlogs.
  destruct Hlogs as (hs & Hh & Hren & Hown & _).
  rewrite (console_since_app _ _ _ Hcon), (handled_since_app _ _ _ Hh), Hown.
  split; [done|]. clear Hown Hren Hh Hcon.
  unfold success_records.
  destruct Hrun; (split; intros Hcode; try discriminate Hcode).
  - exists 0%nat, [msg_start; msg_loading g], e.
    split; [done|]. split; [by eexists | simpl; lia].
  - exists 0%nat, [msg_start; msg_loading g], e.
    split; [done|]. split; [by eexists | simpl; lia].
  - exists 0%nat, [msg_start; msg_loading g; msg_parsing], e.
    split; [done|]. split; [by eexists | simpl; lia].
  - exists (length nodes),
      [msg_start; msg_loading g; msg_parsing; msg_parsed (length nodes);
       msg_client g], e.
    split; [done|]. split; [by eexists | simpl; lia].
  - exists (length nodes),
      [msg_start; msg_loading g; msg_parsing; msg_parsed (length nodes);
       msg_client g], e.
    split; [done|]. split; [by eexists | simpl; lia].
  - exists (length nodes),
      [msg_start; msg_loading g; msg_parsing; msg_parsed (length nodes);
       msg_client g; msg_collection g; msg_building], e.
    split; [done|]. split; [by eexists | simpl; lia].
  - exists nodes. split; [by do 2 eexists | done].
Qed.

(** X4: the driver returns 0 exactly when every library call of the run
    returned; as soon as one raises, it returns 1. *)
Theorem returns_0_iff_every_call_returned g w :
  let out := build_vector_store_from_documents g w in
  out.1 = 0
  <-> Forall (fun ev : Event => ev.2 = Returned) (trace_since w out.2).
Proof.
  intros out.
  destruct (build_run g w) as (evs & records & lines & d & Hrun & Htr & _).
  fold out in Hrun, Htr. rewrite (trace_since_app _ _ _ Htr). split.
  - intros Hcode. rewrite Hcode in Hrun.
    inversion Hrun as [| | | | | |files docs nodes evs' recs d' Hf Hd Hn Ho Hc];
      subst.
    destruct (build_index_stage g w nodes) as
      (docs' & w6 & r & wi & Htr6 & _ & Hindex & Htri & _ & Hret);
      [by do 2 eexists | done | done |].
    fold out in Htri, Hret. rewrite Hcode in Hret.
    destruct r as [e|[]]; [discriminate Hret|].
    destruct (index_nodes_frame _ _ _ _ _ _ Hindex)
      as (_ & _ & evs6 & Htrw & _ & Hall).
    rewrite Htri, Htrw, Htr6, <- !app_assoc in Htr.
    apply app_inv_head in Htr. rewrite <- Htr.
    unfold events_parsed. rewrite !Forall_app. repeat split;
      try (by apply Hall); repeat constructor.
  - intros Hall. destruct (run_code _ _ _ _ _ _ Hrun) as [?|Hcode]; [done|].
    rewrite Hcode in Hrun.
    destruct (run_failure_has_raised _ _ _ _ _ Hrun) as (a & Ha).
    rewrite Forall_forall in Hall. by apply Hall in Ha.
Qed.

(** X5: a run that returns 0 leaves the configured collection with the
    records it had followed by one new record per parsed node, in the
    order of the nodes, each holding the node's text, metadata and
    embedding; the records of every other collection are unchanged. *)
Theorem successful_run_adds_one_record_per_node g w nodes :
  (build_vector_store_from_documents g w).1 = 0 ->
  loads_and_parses g w nodes ->
  (exists new,
     records_at (VECTOR_STORE_DIR (settings g)) (COLLECTION_NAME (settings g))
       (disk (build_vector_store_from_documents g w).2)
     = records_at (VECTOR_STORE_DIR (settings g)) (COLLECTION_NAME (settings g))
         (disk w) ++ new
     /\ Forall2 (embeds (embed_model g)) nodes new
     /\ length new = length nodes)
  /\ forall path name,
       (path, name)
       <> (VECTOR_STORE_DIR (settings g), COLLECTION_NAME (settings g)) ->
       records_at path name (disk (build_vector_store_from_documents g w).2)
       = records_at path name (disk w).
Proof.
  intros Hcode (files & docs & Hfiles & Hdocs & Hnodes).
  destruct (build_run g w) as (evs & records & lines & d & Hrun & _ & _ & _ & Hd).
  rewrite Hcode in Hrun.
  inversion Hrun as [| | | | | |files' docs' nodes' evs' recs d' Hf Hl Hn Ho Hc
                              _ _ Hrecs Hall]; subst.
  assert (files' = files) as -> by congruence.
  assert (docs' = docs) as -> by congruence.
  assert (nodes' = nodes) as -> by congruence.
  split.
  - exists recs. split; [done|]. split; [done|].
    symmetry. by eapply Forall2_length.
  - intros path name Hne.
    destruct (build_index_stage g w nodes) as
      (docs' & w6 & r & wi & _ & Hd6 & Hindex & _ & Hdi & _);
      [by do 2 eexists | done | done |].
    destruct (index_nodes_frame _ _ _ _ _ _ Hindex) as (_ & Hother & _).
    rewrite Hdi, (Hother path name Hne), Hd6.
    by rewrite records_at_get_or_create, records_at_open_store.
Qed.

(** X6: once the store has handed out the collection, the collection
    exists after the run whatever the driver returns, and holds the
    records it had followed by the records of the first nodes, in order:
    of all the nodes when the driver returns 0, of fewer when it returns 1
    (nothing written before the failure is taken back). *)
Theorem partial_write_is_prefix_of_nodes g w nodes :
  loads_and_parses g w nodes ->
  chroma_fault (OpOpen (VECTOR_STORE_DIR (settings g))) = None ->
  chroma_fault (OpGetOrCreate (VECTOR_STORE_DIR (settings g))
                              (COLLECTION_NAME (settings g))) = None ->
  let out := build_vector_store_from_documents g w in
  collection_exists (VECTOR_STORE_DIR (settings g))
    (COLLECTION_NAME (settings g)) (disk out.2)
  /\ exists new,
       records_at (VECTOR_STORE_DIR (settings g)) (COLLECTION_NAME (settings g))
         (disk out.2)
       = records_at (VECTOR_STORE_DIR (settings g)) (COLLECTION_NAME (settings g))
           (disk w) ++ new
       /\ Forall2 (embeds (embed_model g)) (take (length new) nodes) new
       /\ (out.1 = 0 -> length new = length nodes)
       /\ (out.1 = 1 -> (length new < length nodes)%nat).
Proof.
  intros Hparse Hopen Hcoll out.
  destruct (build_index_stage g w nodes Hparse Hopen Hcoll) as
    (docs & w6 & r & wi & _ & Hd6 & Hindex & _ & Hdi & Hret).
  fold out in Hdi, Hret.
  assert (collection_exists (VECTOR_STORE_DIR (settings g))
            (COLLECTION_NAME (settings g)) (disk w6)) as Hex.
  { rewrite Hd6. apply collection_exists_get_or_create. }
  assert (records_at (VECTOR_STORE_DIR (settings g))
            (COLLECTION_NAME (settings g)) (disk w6)
          = records_at (VECTOR_STORE_DIR (settings g))
              (COLLECTION_NAME (settings g)) (disk w)) as Hsame.
  { by rewrite Hd6, records_at_get_or_create, records_at_open_store. }
  destruct (index_nodes_prefix _ _ _ _ _ _ Hindex Hex)
    as (Hex' & recs & Hrecs & Hall & _ & Hfull).
  cbn [fst snd] in Hrecs, Hex'. rewrite Hsame in Hrecs.
  rewrite Hdi. split; [done|]. exists recs.
  split; [done|]. split; [done|]. split.
  - intros Hcode. rewrite Hcode in Hret.
    destruct r as [e|[]]; [discriminate Hret | by apply Hfull].
  - intros Hcode. rewrite Hcode in Hret.
    destruct r as [e|[]]; [|discriminate Hret].
    destruct (index_nodes_raised_short _ _ _ _ _ _ Hindex Hex)
      as (recs' & Hrecs' & Hshort).
    cbn [fst snd] in Hrecs'. rewrite Hsame, Hrecs in Hrecs'.
    apply app_inv_head in Hrecs'. by subst recs'.
Qed.

(** X7: every call of a run names the configured documents directory,
    store path and collection and no other, and every store path other
    than the configured one is after the run what it was before. *)
Theorem run_touches_only_configured_names g w :
  let out := build_vector_store_from_documents g w in
  Forall (names_configured g) (trace_since w out.2)
  /\ forall q, q <> VECTOR_STORE_DIR (settings g) ->
       disk out.2 !! q = disk w !! q.
Proof.
  intros out.
  destruct (build_run g w) as (evs & records & lines & d & Hrun & Htr & _ & _ & Hd).
  fold out in Hrun, Htr, Hd. rewrite (trace_since_app _ _ _ Htr).
  destruct (run_early_or_index _ _ _ _ _ _ Hrun)
    as [(Hnames & Hdisk) | (nodes & Hparse & Hopen & Hcoll)].
  - split; [done|]. intros q Hne. rewrite Hd.
    destruct Hdisk as [-> | ->]; [done | by apply open_store_lookup_other].
  - destruct (build_index_stage g w nodes Hparse Hopen Hcoll) as
      (docs & w6 & r & wi & Htr6 & Hd6 & Hindex & Htri & Hdi & _).
    fold out in Htri, Hdi.
    destruct (index_nodes_frame _ _ _ _ _ _ Hindex)
      as (Hq & _ & evs6 & Htrw & Hev & _).
    split.
    + rewrite Htri, Htrw, Htr6, <- !app_assoc in Htr.
      apply app_inv_head in Htr. rewrite <- Htr.
      unfold events_parsed. rewrite !Forall_app. repeat split;
        try (by repeat constructor).
      eapply Forall_impl; [exact Hev|].
      intros [a o] [(t & Ha) | Ha]; simpl in Ha; subst a; by compute.
    + intros q Hne. rewrite Hdi, (Hq q Hne), Hd6.
      by rewrite get_or_create_lookup_other, open_store_lookup_other.
Qed.

(** X8: the driver does not deduplicate.  After two runs that both return
    0 over the same documents, the second against the store the first
    left, the collection holds what it had before the first run followed
    by the records of the first run and then by as many records of the
    second, with the same texts and the same vectors. *)
Theorem rerun_over_same_documents_duplicates g w0 w2 nodes :
  (build_vector_store_from_documents g w0).1 = 0 ->
  (build_vector_store_from_documents g w2).1 = 0 ->
  fs w2 = fs w0 ->
  disk w2 = disk (build_vector_store_from_documents g w0).2 ->
  loads_and_parses g w0 nodes ->
  exists r1 r2,
    records_at (VECTOR_STORE_DIR (settings g)) (COLLECTION_NAME (settings g))
      (disk (build_vector_store_from_documents g w2).2)
    = records_at (VECTOR_STORE_DIR (settings g)) (COLLECTION_NAME (settings g))
        (disk w0) ++ r1 ++ r2
    /\ length r1 = length nodes /\ length r2 = length nodes
    /\ map rec_text r1 = map node_text nodes
    /\ map rec_text r2 = map rec_text r1
    /\ map rec_embedding r2 = map rec_embedding r1.
Proof.
  intros Hcode0 Hcode2 Hfs Hdisk (files & docs & Hfiles & Hdocs & Hnodes).
  destruct (build_run g w0) as (evs0 & rc0 & l0 & d0 & Hrun0 & _ & _ & _ & Hd0).
  destruct (build_run g w2) as (evs2 & rc2 & l2 & d2 & Hrun2 & _ & _ & _ & Hd2).
  rewrite Hcode0 in Hrun0. rewrite Hcode2 in Hrun2.
  inversion Hrun0 as [| | | | | |f0 dc0 n0 ? r1 ? Hf0 Hl0 Hn0 _ _ _ _ Hr1 Ha1];
    subst.
  inversion Hrun2 as [| | | | | |f2 dc2 n2 ? r2 ? Hf2 Hl2 Hn2 _ _ _ _ Hr2 Ha2];
    subst.
  rewrite Hfs in Hf2.
  assert (f0 = files) as -> by congruence.
  assert (dc0 = docs) as -> by congruence.
  assert (n0 = nodes) as -> by congruence.
  assert (f2 = files) as -> by congruence.
  assert (dc2 = docs) as -> by congruence.
  assert (n2 = nodes) as -> by congruence.
  destruct (embeds_same_nodes _ _ _ Ha2 _ Ha1) as [Ht He].
  exists r1, r2. rewrite Hr2, Hdisk, Hr1, <- app_assoc.
  split; [done|]. split; [symmetry; by eapply Forall2_length|].
  split; [symmetry; by eapply Forall2_length|].
  split; [|by split].
  clear -Ha1. induction Ha1 as [|n x ? ? (_ & _ & Ht & _) _ IH]; [done|].
  simpl. by rewrite Ht, IH.
Qed.

(** X9: when the parser returns no node (and the store hands out the
    collection), index construction has nothing to do: the driver returns
    0, the records the script itself logged are the eight INFO records
    with "Parsed 0 nodes.", the configured collection exists, and no
    collection has gained a record. *)
Theorem run_without_nodes_returns_0 g w :
  loads_and_parses g w [] ->
  chroma_fault (OpOpen (VECTOR_STORE_DIR (settings g))) = None ->
  chroma_fault (OpGetOrCreate (VECTOR_STORE_DIR (settings g))
                              (COLLECTION_NAME (settings g))) = None ->
  let out := build_vector_store_from_documents g w in
  out.1 = 0
  /\ own (handled_since w out.2) = success_records g 0
  /\ collection_exists (VECTOR_STORE_DIR (settings g))
       (COLLECTION_NAME (settings g)) (disk out.2)
  /\ forall path name,
       records_at path name (disk out.2) = records_at path name (disk w).
Proof.
  intros Hparse Hopen Hcoll out.
  destruct (build_index_stage g w [] Hparse Hopen Hcoll) as
    (docs & w6 & r & wi & _ & Hd6 & Hindex & _ & Hdi & Hret).
  fold out in Hdi, Hret. injection Hindex as <- <-.
  cbn in Hret. split; [done|].
  split; [|split].
  - destruct (build_run g w)
      as (evs & records & lines & d & Hrun & _ & _ & Hlogs & _).
    fold out in Hrun, Hlogs. rewrite Hret in Hrun.
    destruct Hparse as (files & docs0 & Hf & Hl & Hn).
    inversion Hrun as [| | | | | |f1 d1 n1 ? ? ? Hf1 Hl1 Hn1]; subst.
    destruct Hlogs as (hs & Hh & _ & Hown & _).
    assert (f1 = files) as -> by congruence.
    assert (d1 = docs0) as -> by congruence.
    assert (n1 = []) as -> by congruence.
    by rewrite (handled_since_app _ _ _ Hh).
  - rewrite Hdi, Hd6. apply collection_exists_get_or_create.
  - intros path name. rewrite Hdi, Hd6.
    by rewrite records_at_get_or_create, records_at_open_store.
Qed.

(** X10: when the client opens and the request for the collection
    raises, the driver returns 1 and the store directory opened on the
    way stays behind (created if it was not there), with no collection
    changed. *)
Theorem collection_failure_leaves_store_directory g w nodes e :
  loads_and_parses g w nodes ->
  chroma_fault (OpOpen (VECTOR_STORE_DIR (settings g))) = None ->
  chroma_fault (OpGetOrCreate (VECTOR_STORE_DIR (settings g))
                              (COLLECTION_NAME (settings g))) = Some e ->
  let out := build_vector_store_from_documents g w in
  out.1 = 1
  /\ disk out.2 = open_store (VECTOR_STORE_DIR (settings g)) (disk w)
  /\ is_Some (disk out.2 !! VECTOR_STORE_DIR (settings g))
  /\ forall path name,
       records_at path name (disk out.2) = records_at path name (disk w).
Proof.
  intros (files & docs & Hfiles & Hdocs & Hnodes) Hopen Hcoll out.
  destruct (build_run g w) as (evs & records & lines & d & Hrun & _ & _ & _ & Hd).
  fold out in Hrun, Hd. rewrite Hd.
  destruct Hrun; try congruence.
  split; [done|]. split; [done|]. split.
  - apply open_store_is_Some.
  - intros path name. apply records_at_open_store.
Qed.

End DriverExtras.

(** ** Concrete runs for the further properties *)

Section ConcreteExtras.

Import Reference.

#[local] Existing Instance Reference.collaborators.

(** X2 at [world_unconfigured]: the settings cannot be constructed. *)
Lemma import_failure_witness :
  module_init world_unconfigured
  = (inl (PyException "ValidationError" "Field required"),
     (module_init world_unconfigured).2)
  /\ (run_script world_unconfigured).1 = 1.
Proof.
  assert (module_init world_unconfigured
          = (inl (PyException "ValidationError" "Field required"),
             (module_init world_unconfigured).2)) as Hinit
    by (vm_compute; reflexivity).
  split; [exact Hinit|].
  exact (proj1 (import_failure_aborts_before_driver world_unconfigured _ _ Hinit)).
Defined.

(** X5 at [world_one]: one node, one new record. *)
Lemma one_record_per_node_witness :
  (build_vector_store_from_documents globals world_one).1 = 0
  /\ loads_and_parses globals world_one [the_node]
  /\ exists new,
       records_at "store" "papers"
         (disk (build_vector_store_from_documents globals world_one).2)
       = records_at "store" "papers" (disk world_one) ++ new
       /\ length new = 1%nat.
Proof.
  assert ((build_vector_store_from_documents globals world_one).1 = 0)
    as Hcode by (vm_compute; reflexivity).
  assert (loads_and_parses globals world_one [the_node]) as Hparse.
  { exists [the_file], [the_document].
    split; [|split]; vm_compute; reflexivity. }
  split; [exact Hcode|]. split; [exact Hparse|].
  destruct (successful_run_adds_one_record_per_node globals world_one
              [the_node] Hcode Hparse) as ((new & Hnew & _ & Hlen) & _).
  exists new. split; [exact Hnew | exact Hlen].
Defined.

(** X6 with a store that refuses every insertion: the run fails and the
    collection is there all the same. *)
Lemma partial_write_witness :
  loads_and_parses (H := read_only_store) globals world_one [the_node]
  /\ chroma_fault (Collaborators := read_only_store) (OpOpen "store") = None
  /\ chroma_fault (Collaborators := read_only_store)
       (OpGetOrCreate "store" "papers") = None
  /\ collection_exists "store" "papers"
       (disk (build_vector_store_from_documents (H := read_only_store)
                globals world_one).2).
Proof.
  assert (loads_and_parses (H := read_only_store) globals world_one [the_node])
    as Hparse.
  { exists [the_file], [the_document].
    split; [|split]; vm_compute; reflexivity. }
  split; [exact Hparse|]. split; [reflexivity|]. split; [reflexivity|].
  exact (proj1 (partial_write_is_prefix_of_nodes (H := read_only_store)
                  globals world_one [the_node] Hparse eq_refl eq_refl)).
Defined.

(** X8 for a second run right after a first one over [world_one]. *)
Lemma rerun_duplicates_witness :
  (build_vector_store_from_documents globals world_one).1 = 0
  /\ (build_vector_store_from_documents globals world_rerun).1 = 0
  /\ fs world_rerun = fs world_one
  /\ loads_and_parses globals world_one [the_node]
  /\ exists r1 r2,
       records_at "store" "papers"
         (disk (build_vector_store_from_documents globals world_rerun).2)
       = records_at "store" "papers" (disk world_one) ++ r1 ++ r2
       /\ length r1 = 1%nat /\ length r2 = 1%nat.
Proof.
  assert ((build_vector_store_from_documents globals world_one).1 = 0)
    as Hcode0 by (vm_compute; reflexivity).
  assert ((build_vector_store_from_documents globals world_rerun).1 = 0)
    as Hcode2 by (vm_compute; reflexivity).
  assert (fs world_rerun = fs world_one) as Hfs by (vm_compute; reflexivity).
  assert (disk world_rerun
          = disk (build_vector_store_from_documents globals world_one).2)
    as Hdisk by (unfold world_rerun; reflexivity).
  assert (loads_and_parses globals world_one [the_node]) as Hparse.
  { exists [the_file], [the_document].
    split; [|split]; vm_compute; reflexivity. }
  split; [exact Hcode0|]. split; [exact Hcode2|]. split; [exact Hfs|].
  split; [exact Hparse|].
  destruct (rerun_over_same_documents_duplicates globals world_one world_rerun
              [the_node] Hcode0 Hcode2 Hfs Hdisk Hparse)
    as (r1 & r2 & Hrecs & Hl1 & Hl2 & _).
  exists r1, r2. split; [exact Hrecs|]. split; [exact Hl1 | exact Hl2].
Defined.

(** X9 at [world_blank]: an empty file gives no node. *)
Lemma run_without_nodes_witness :
  loads_and_parses globals world_blank []
  /\ (build_vector_store_from_documents globals world_blank).1 = 0.
Proof.
  assert (loads_and_parses globals world_blank []) as Hparse.
  { exists [ {| file_name := "e.txt"; file_content := "" |} ],
           [ {| doc_text := ""; doc_metadata := "e.txt" |} ].
    split; [|split]; vm_compute; reflexivity. }
  split; [exact Hparse|].
  exact (proj1 (run_without_nodes_returns_0 globals world_blank
                  Hparse eq_refl eq_refl)).
Defined.

(** X10 with a store that refuses to hand out the collection. *)
Lemma collection_failure_witness :
  loads_and_parses (H := no_collection_store) globals world_one [the_node]
  /\ (build_vector_store_from_documents (H := no_collection_store)
        globals world_one).1 = 1
  /\ is_Some (disk (build_vector_store_from_documents
                      (H := no_collection_store) globals world_one).2
              !! "store").
Proof.
  assert (loads_and_parses (H := no_collection_store) globals world_one
            [the_node]) as Hparse.
  { exists [the_file], [the_document].
    split; [|split]; vm_compute; reflexivity. }
  split; [exact Hparse|].
  destruct (collection_failure_leaves_store_directory
              (H := no_collection_store) globals world_one [the_node]
              (PyException "ValueError" "invalid collection name")
              Hparse eq_refl eq_refl) as (Hcode & _ & Hdir & _).
  split; [exact Hcode | exact Hdir].
Defined.

End ConcreteExtras.
